(** * generate_bitmap.py: the land/water bitmap pipeline

    A shallow embedding of [generate_bitmap.py] (rasterizer, validator,
    bit-packer, run-length encoder and the final base64 step) together
    with the properties its specification states about them.

    Conventions of the embedding:
    - Python [int] is [Z] (or [nat] for loop counters and lengths, which
      are never negative); Python [float] is the kernel's binary64
      [float], so that the arithmetic of the source rounds as it does in
      CPython;
    - a [numpy] array of dtype [uint8] is a list of [Z] in [0, 256);
      a 2-D array carries its shape next to its rows;
    - code that can raise returns a [result]: [Ok v] or [Raise e];
    - [while] loops are defined by well-founded recursion on the
      quantity that makes them terminate. *)

From Stdlib Require Import ZArith ZifyNat Floats Ascii String.
From Equations Require Import Equations.
From stdpp Require Import base list.

Set Default Proof Using "Type".
Set Warnings "-inexact-float".

(** ** Python exceptions and results *)

(** The exceptions of the model. The first four are raised by the
    operations the source uses; [EmptyGeometryError] is named by the
    specification, and nothing in the source raises it. *)
Inductive exn : Type :=
| IndexError
| ValueError
| OverflowError
| ZeroDivisionError
| EmptyGeometryError.

Inductive result (A : Type) : Type :=
| Ok (a : A)
| Raise (e : exn).
Arguments Ok {A} a.
Arguments Raise {A} e.

Definition bind {A B : Type} (m : result A) (k : A -> result B) : result B :=
  match m with
  | Ok a => k a
  | Raise e => Raise e
  end.

Notation "'do' x <- m ; k" := (bind m (fun x => k))
  (at level 10, x name, m at level 100, k at level 200).

(** ** Numbers *)

(** [float(z)] for a Python [int]: the conversion behind [int + float],
    [int - float] and [int * float]. Exact below [2^53] in magnitude; the
    integers of this program (indices, and the constants 90 and 180) are
    far below [2^63], where the primitive conversion stops. *)
Definition float_of_Z (z : Z) : float :=
  if (z <? 0)%Z then (- of_uint63 (Uint63.of_Z (- z)))%float
  else of_uint63 (Uint63.of_Z z).

Definition float_of_nat (n : nat) : float := float_of_Z (Z.of_nat n).

(** [x / y] on floats: Python raises on a zero divisor, of either sign. *)
Definition float_truediv (x y : float) : result float :=
  if (y =? 0)%float then Raise ZeroDivisionError else Ok (x / y)%float.

(** [int(x)]: truncation toward zero; [ValueError] on a NaN and
    [OverflowError] on an infinity. *)
Definition int_of_float (x : float) : result Z :=
  match Prim2SF x with
  | S754_zero _ => Ok 0%Z
  | S754_infinity _ => Raise OverflowError
  | S754_nan => Raise ValueError
  | S754_finite sign m e =>
      let magnitude :=
        if (0 <=? e)%Z then Z.shiftl (Z.pos m) e else Z.shiftr (Z.pos m) (- e) in
      Ok (if sign then (- magnitude)%Z else magnitude)
  end.

(** [a / b] on two [int]s: true division, a [float]; Python raises on a
    zero divisor. Below [2^53] the quotient of the two conversions is the
    correctly rounded quotient Python computes. *)
Definition int_truediv (a b : Z) : result float :=
  if (b =? 0)%Z then Raise ZeroDivisionError
  else Ok (float_of_Z a / float_of_Z b)%float.

(** ** Loops *)

(** A [for] loop whose body may [break]: the body says whether the loop
    goes on. *)
Inductive ctl (St : Type) : Type :=
| Continue (s : St)
| Break (s : St).
Arguments Continue {St} s.
Arguments Break {St} s.

Fixpoint for_break {A St : Type} (items : list A) (s : St) (body : A -> St -> ctl St) : St :=
  match items with
  | [] => s
  | a :: items' =>
      match body a s with
      | Continue s' => for_break items' s' body
      | Break s' => s'
      end
  end.

(** A [for] loop whose body may raise. *)
Fixpoint for_in {A St : Type} (items : list A) (s : St) (body : A -> St -> result St)
    : result St :=
  match items with
  | [] => Ok s
  | a :: items' => do s' <- body a s; for_in items' s' body
  end.

(** ** 2-D [uint8] arrays *)

(** [shape0] and [shape1] are [grid.shape[0]] and [grid.shape[1]]; [cells]
    holds the rows. *)
Record ndarray2 : Type := Ndarray2 {
  shape0 : nat;
  shape1 : nat;
  cells : list (list Z) }.

Definition wf_ndarray2 (g : ndarray2) : Prop :=
  length (cells g) = shape0 g /\
  Forall (fun row => length row = shape1 g) (cells g).

(** A boolean grid: every cell is 0 (water) or 1 (land). *)
Definition is_boolean (g : ndarray2) : Prop :=
  Forall (Forall (fun v => v = 0%Z \/ v = 1%Z)) (cells g).

(** [np.zeros((rows, cols), dtype=np.uint8)] *)
Definition np_zeros2 (rows cols : nat) : ndarray2 :=
  Ndarray2 rows cols (replicate rows (replicate cols 0%Z)).

(** A small boolean grid, 2 rows of 5 cells, to run the functions on. *)
Definition sample_grid : ndarray2 :=
  Ndarray2 2 5 [[1; 0; 1; 0; 1]; [1; 1; 1; 1; 0]]%Z.

(** [np.zeros(n, dtype=np.uint8)] *)
Definition np_zeros (n : nat) : list Z := replicate n 0%Z.

(** One index of [a[i, j]] on an axis of length [n]: a negative index
    counts from the end, anything outside [-n, n) raises [IndexError]. *)
Definition axis_index (n : nat) (i : Z) : result nat :=
  if ((0 <=? i) && (i <? Z.of_nat n))%Z then Ok (Z.to_nat i)
  else if ((- Z.of_nat n <=? i) && (i <? 0))%Z then Ok (Z.to_nat (i + Z.of_nat n))
  else Raise IndexError.

(** [grid[row, col]] *)
Definition getitem2 (g : ndarray2) (row col : Z) : result Z :=
  do r <- axis_index (shape0 g) row;
  do c <- axis_index (shape1 g) col;
  match cells g !! r with
  | Some line =>
      match line !! c with
      | Some v => Ok v
      | None => Raise IndexError
      end
  | None => Raise IndexError
  end.

(** [grid[row, col] = v] *)
Definition setitem2 (g : ndarray2) (row col : Z) (v : Z) : result ndarray2 :=
  do r <- axis_index (shape0 g) row;
  do c <- axis_index (shape1 g) col;
  match cells g !! r with
  | Some line =>
      if c <? length line
      then Ok (Ndarray2 (shape0 g) (shape1 g) (<[r := <[c := v]> line]> (cells g)))
      else Raise IndexError
  | None => Raise IndexError
  end.

(** The cell at row [r] and column [c], when there is one. *)
Definition cell (g : ndarray2) (r c : nat) : option Z :=
  cells g !! r ≫= (.!! c).

(** [grid.flatten()]: the cells in row-major order. *)
Definition flatten (g : ndarray2) : list Z := concat (cells g).

(** ** The geometry engine *)

(** [Point(x, y)] *)
Record point : Type := Point { point_x : float; point_y : float }.

(** What the program asks of shapely: the union of a list of geometries
    and the point-containment test. [prep] only indexes a geometry for
    speed, its [contains] answers as the geometry's own, so the prepared
    geometry is the geometry. *)
Class GeometryEngine : Type := {
  geometry : Type;
  unary_union : list geometry -> geometry;
  contains : geometry -> point -> bool }.

Definition prep `{GeometryEngine} (g : geometry) : geometry := g.

(** The plainest engine: a geometry is the set of its points, and a union
    holds the points of its members. It serves to run the rasterizer on
    concrete inputs. *)
Definition point_sets : GeometryEngine :=
  {| geometry := point -> bool;
     unary_union := fun gs p => existsb (fun g => g p) gs;
     contains := fun g p => g p |}.

(** A geometry of [point_sets] that holds one point only: the last
    sub-sample point the rasterizer tests in cell [(row, col)]. *)
Definition islet (res : float) (row col : nat) : point -> bool :=
  fun p =>
    ((point_x p =? -180.0 + (float_of_nat col + 0.83) * res) &&
     (point_y p =? 90.0 - (float_of_nat row + 0.83) * res))%float.

(** ** [generate_grid] *)

(** The progress report that ends the body of [for row in range(rows)]:
    [if (row + 1) % 180 == 0:] it computes [pct = checked / total * 100]
    for its message. The message goes to the diagnostic stream and is
    left out; the division is kept, it raises when [total] is 0. (The
    rate, [checked / elapsed if elapsed > 0 else 0], is guarded and cannot
    raise.) *)
Definition report_progress (row checked total : nat) : result unit :=
  if (row + 1) mod 180 =? 0 then
    do q <- int_truediv (Z.of_nat checked) (Z.of_nat total);
    let pct := (q * float_of_Z 100)%float in
    Ok tt
  else Ok tt.

Section rasterizer.
Context `{GeometryEngine}.

(** A dataset as [gpd.read_file] returns it: one geometry per record,
    some of them null. *)
Definition dataset : Type := list (option geometry).

(** [offsets = [0.17, 0.5, 0.83]] *)
Definition offsets : list float := [0.17; 0.5; 0.83]%float.

(** [lat = 90.0 - (row + yo) * res] *)
Definition sample_lat (res : float) (row : nat) (yo : float) : float :=
  (90.0 - (float_of_nat row + yo) * res)%float.

(** [lng = -180.0 + (col + xo) * res] *)
Definition sample_lng (res : float) (col : nat) (xo : float) : float :=
  (-180.0 + (float_of_nat col + xo) * res)%float.

(** The two nested loops over [offsets] for one cell: the final value
    of [is_land]. *)
Definition cell_is_land (prepared : geometry) (res : float) (row col : nat) : bool :=
  for_break offsets false (fun yo is_land =>
    if is_land then Break is_land
    else
      let lat := sample_lat res row yo in
      Continue (for_break offsets is_land (fun xo is_land =>
        let lng := sample_lng res col xo in
        if contains prepared (Point lng lat) then Break true
        else Continue is_land))).

(** The nine sub-sample points of a cell, in the order the loops test
    them. *)
Definition sample_points (res : float) (row col : nat) : list point :=
  yo ← offsets; xo ← offsets;
  [Point (sample_lng res col xo) (sample_lat res row yo)].

(** The body of [for row in range(rows)]: the loop over the columns. *)
Definition rasterize_row (prepared : geometry) (res : float) (cols : nat)
    (row : nat) (grid : ndarray2) : result ndarray2 :=
  for_in (seq 0 cols) grid (fun col grid =>
    if cell_is_land prepared res row col
    then setitem2 grid (Z.of_nat row) (Z.of_nat col) 1%Z
    else Ok grid).

(** [generate_grid(rows, cols, res)], with the dataset it reads as an
    argument. The state of the loop over the rows is the grid and the
    counter [checked]. The messages go to the diagnostic stream and are
    left out, their arithmetic is kept where it can raise: that is the
    progress report of every 180th row. The closing message divides
    [np.sum(grid)], a numpy integer, by [total]: numpy answers a division
    by zero with nan or inf and a warning, and raises nothing. *)
Definition generate_grid (world : dataset) (rows cols : nat) (res : float)
    : result ndarray2 :=
  let land_geoms := omap id world in
  let merged := unary_union land_geoms in
  let prepared := prep merged in
  let grid := np_zeros2 rows cols in
  let total := rows * cols in
  let checked := 0 in
  do final <- for_in (seq 0 rows) (grid, checked) (fun row '(grid, checked) =>
    do grid <- rasterize_row prepared res cols row grid;
    let checked := checked + cols in
    do _ <- report_progress row checked total;
    Ok (grid, checked));
  Ok (fst final).

(** The default arguments of [def generate_grid(rows=720, cols=1440,
    res=0.25)]. *)
Definition generate_grid_default_rows : nat := 720.
Definition generate_grid_default_cols : nat := 1440.
Definition generate_grid_default_res : float := 0.25%float.

(** A call that may leave arguments out. *)
Definition generate_grid_call (world : dataset)
    (rows cols : option nat) (res : option float) : result ndarray2 :=
  generate_grid world
    (default generate_grid_default_rows rows)
    (default generate_grid_default_cols cols)
    (default generate_grid_default_res res).
End rasterizer.

(** *** The containment tests of one cell *)

(** A list up to its first element that satisfies [f], that element
    included; the whole list when there is none. *)
Fixpoint through_first {A : Type} (f : A -> bool) (l : list A) : list A :=
  match l with
  | [] => []
  | a :: l' => if f a then [a] else a :: through_first f l'
  end.

Section probes.
Context `{GeometryEngine}.

(** The two loops of [cell_is_land] once more, carrying next to
    [is_land] the points handed to [prepared.contains], in the order of
    the calls. *)
Definition probe_cell (prepared : geometry) (res : float) (row col : nat)
    : bool * list point :=
  for_break offsets (false, []) (fun yo '(is_land, tested) =>
    if is_land then Break (is_land, tested)
    else
      let lat := sample_lat res row yo in
      Continue (for_break offsets (is_land, tested) (fun xo '(is_land, tested) =>
        let lng := sample_lng res col xo in
        if contains prepared (Point lng lat)
        then Break (true, tested ++ [Point lng lat])
        else Continue (is_land, tested ++ [Point lng lat])))).
End probes.

(** ** [validate_grid] *)

(** The nested [check(lat, lng, expected_name, expected_land)]; the name
    only labels the diagnostic line. *)
Definition check (grid : ndarray2) (res : float)
    (lat lng : float) (expected_land : bool) : result bool :=
  do qrow <- float_truediv (float_of_Z 90 - lat)%float res;
  do row <- int_of_float qrow;
  do qcol <- float_truediv (lng + float_of_Z 180)%float res;
  do col <- int_of_float qcol;
  let row := Z.max 0 (Z.min (Z.of_nat (shape0 grid) - 1) row) in
  let col := Z.max 0 (Z.min (Z.of_nat (shape1 grid) - 1) col) in
  do cell <- getitem2 grid row col;
  let actual := negb (cell =? 0)%Z in
  Ok (Bool.eqb actual expected_land).

(** The known points, in the order of the calls: latitude, longitude,
    expected land. *)
Definition known_points : list (float * float * bool) :=
  [ (37.77, -122.42, true);    (* San Francisco *)
    (20.0, -160.0, false);     (* Mid-Pacific *)
    (35.68, 139.69, true);     (* Tokyo *)
    (19.7, -155.5, true);      (* Hawaii Big Island *)
    (51.5, -0.12, true);       (* London *)
    (0.0, -30.0, false);       (* Mid-Atlantic *)
    (-33.87, 151.21, true);    (* Sydney *)
    (21.31, -157.86, true);    (* Honolulu *)
    (0.0, 0.0, false) ]%float. (* Gulf of Guinea *)

(** [validate_grid(grid, res)]: [all_ok &= check(...)] for each known
    point; [&=] does not short-circuit, so every check runs. *)
Definition validate_grid (grid : ndarray2) (res : float) : result bool :=
  for_in known_points true (fun '(lat, lng, expected_land) all_ok =>
    do ok <- check grid res lat lng expected_land;
    Ok (all_ok && ok)).

(** The default argument of [def validate_grid(grid, res=0.25)]. *)
Definition validate_grid_default_res : float := 0.25%float.

Definition validate_grid_call (grid : ndarray2) (res : option float) : result bool :=
  validate_grid grid (default validate_grid_default_res res).

(** ** [bitpack] *)

(** [dst[:len(src)] = src] on 1-D arrays, for [len(src) <= len(dst)]
    (numpy refuses a longer [src]; [bitpack] never has one). *)
Definition set_prefix (dst src : list Z) : list Z :=
  src ++ drop (length src) dst.

(** [a[start::step]] for [start >= 0] and [step > 0]: the elements at
    [start], [start + step], ... *)
Definition strided (a : list Z) (start step : nat) : list Z :=
  (fun j => nth (start + j * step) a 0%Z) <$>
  seq 0 ((length a - start + (step - 1)) / step).

(** [x << k] on [uint8]: the bits shifted out of the byte are lost. *)
Definition uint8_shl (x : Z) (k : Z) : Z := Z.land (Z.shiftl x k) 255.

(** [packed |= bits << k], element by element, on arrays of one length
    (numpy refuses others; [bitpack] never has them). *)
Definition ior_shl (packed bits : list Z) (k : Z) : list Z :=
  zip_with Z.lor packed ((fun x => uint8_shl x k) <$> bits).

Definition bitpack (grid : ndarray2) : list Z :=
  let flat := flatten grid in
  let padded_len := (length flat + 7) / 8 * 8 in
  let padded := set_prefix (np_zeros padded_len) flat in
  let packed := np_zeros (padded_len / 8) in
  foldl (fun packed bit => ior_shl packed (strided padded bit 8) (7 - Z.of_nat bit))
        packed (seq 0 8).

(** ** Byte sequences *)

(** One byte: an integer of [range(256)]. *)
Definition in_byte_range (v : Z) : bool := ((0 <=? v) && (v <? 256))%Z.

(** A [bytes] object or a 1-D [uint8] array. *)
Definition is_bytes (data : list Z) : Prop :=
  Forall (fun v => (0 <= v < 256)%Z) data.

(** [bytearray.append(v)]: raises [ValueError] unless [v] is in
    [range(256)]. *)
Definition bytearray_append (ba : list Z) (v : Z) : result (list Z) :=
  if in_byte_range v then Ok (ba ++ [v]) else Raise ValueError.

(** ** [rle_encode] *)

(** The guard of the inner [while] of [rle_encode]:
    [i + count < len(data) and data[i + count] == value and count < 255].
    The [and]s short-circuit, so [data[i + count]] is only read in range. *)
Definition run_continues (data : list Z) (i : nat) (value : Z) (count : nat) : bool :=
  if i + count <? length data then
    match data !! (i + count) with
    | Some v => (v =? value)%Z && (count <? 255)
    | None => false
    end
  else false.

(** The inner [while] of [rle_encode], started with [count] and run to
    its exit; it returns the final [count]. *)
Equations? scan_run (data : list Z) (i : nat) (value : Z) (count : nat) : nat
  by wf (255 - count) lt :=
  scan_run data i value count with Logic.inspect (run_continues data i value count) := {
    | exist _ true Hgo => scan_run data i value (count + 1)
    | exist _ false Hstop => count }.
Proof.
  unfold run_continues in Hgo.
  destruct (i + count <? length data); [|done].
  destruct (data !! (i + count)); [|done].
  apply andb_prop in Hgo as [_ Hlt]. apply Nat.ltb_lt in Hlt. lia.
Qed.

(** The inner loop never lowers [count]: what makes the outer loop
    advance, and so terminate. *)
Lemma scan_run_ge data i value count : count <= scan_run data i value count.
Proof.
  funelim (scan_run data i value count); lia.
Qed.

(** The outer [while] of [rle_encode], from index [i] with the bytes
    emitted so far in [out]. *)
Equations? rle_loop (data : list Z) (i : nat) (out : list Z) : result (list Z)
  by wf (length data - i) lt :=
  rle_loop data i out with Logic.inspect (i <? length data) := {
    | exist _ true Hlt =>
        match data !! i with
        | None => Raise IndexError
        | Some value =>
            let count := scan_run data i value 1 in
            match bytearray_append out value with
            | Raise e => Raise e
            | Ok out1 =>
                match bytearray_append out1 (Z.of_nat count) with
                | Raise e => Raise e
                | Ok out2 => rle_loop data (i + count) out2
                end
            end
        end
    | exist _ false Hge => Ok out }.
Proof.
  apply Nat.ltb_lt in Hlt.
  pose proof (scan_run_ge data i value 1). lia.
Qed.

Definition rle_encode (data : list Z) : result (list Z) :=
  rle_loop data 0 [].

(** ** Base64 *)

(** The standard library's [base64.b64encode], after RFC 4648: three
    bytes become four characters of the alphabet below, and a last group
    of one or two bytes is padded with [=]. *)
Module Base64.
Definition alphabet : list ascii :=
  list_ascii_of_string
    "ABCDEFGHIJKLMNOPQRSTUVWXYZabcdefghijklmnopqrstuvwxyz0123456789+/".

Definition pad : ascii := "="%char.

(** The character of a 6-bit value. *)
Definition char_of (sextet : Z) : ascii :=
  nth (Z.to_nat sextet) alphabet pad.

Fixpoint b64encode (data : list Z) : string :=
  match data with
  | [] => EmptyString
  | [a] =>
      String (char_of (Z.shiftr a 2))
     (String (char_of (Z.shiftl (Z.land a 3) 4))
     (String pad (String pad EmptyString)))
  | [a; b] =>
      String (char_of (Z.shiftr a 2))
     (String (char_of (Z.lor (Z.shiftl (Z.land a 3) 4) (Z.shiftr b 4)))
     (String (char_of (Z.shiftl (Z.land b 15) 2))
     (String pad EmptyString)))
  | a :: b :: c :: rest =>
      String (char_of (Z.shiftr a 2))
     (String (char_of (Z.lor (Z.shiftl (Z.land a 3) 4) (Z.shiftr b 4)))
     (String (char_of (Z.lor (Z.shiftl (Z.land b 15) 2) (Z.shiftr c 6)))
     (String (char_of (Z.land c 63))
     (b64encode rest))))
  end.
End Base64.

(** ** [main] *)

(** [rows, cols, res = 1800, 3600, 0.1] *)
Definition main_rows : nat := 1800.
Definition main_cols : nat := 3600.
Definition main_res : float := 0.1%float.

(** [main()]: the line it prints on standard output. The result of the
    validation is not used, but an exception in it ends the run. *)
Definition main `{GeometryEngine} (world : dataset) : result string :=
  do grid <- generate_grid world main_rows main_cols main_res;
  do _ <- validate_grid grid main_res;
  let packed := bitpack grid in
  do rle <- rle_encode packed;
  let b64 := Base64.b64encode rle in
  let quote := String (ascii_of_nat 34) EmptyString in
  Ok (String.append "const LAND_BITMAP_RLE_B64 = "
       (String.append quote (String.append b64 (String.append quote ";")))).

(** ** The inverses and the run structure, in the specification's words *)

(** [rle_decode]: each (value, count) pair expands into [count] copies of
    [value], in order. *)
Fixpoint rle_decode (enc : list Z) : list Z :=
  match enc with
  | v :: c :: rest => replicate (Z.to_nat c) v ++ rle_decode rest
  | _ => []
  end.

(** The count bytes of an encoding: the second byte of each pair. *)
Fixpoint count_bytes (enc : list Z) : list Z :=
  match enc with
  | _ :: c :: rest => c :: count_bytes rest
  | _ => []
  end.

Definition sum_Z (l : list Z) : Z := foldr Z.add 0%Z l.

(** [unpack]: the bits of each byte, most significant first, the bytes
    in order. *)
Definition unpack_byte (b : Z) : list Z :=
  (fun k => Z.b2z (Z.testbit b (7 - Z.of_nat k))) <$> seq 0 8.

Definition unpack (packed : list Z) : list Z :=
  concat (unpack_byte <$> packed).

(** [run_pairs data enc]: [enc] lists one (value, count) pair per run of
    [data], left to right; a run is as long as it can be, up to the cap of
    255: it stops at the end of the data, before a different byte, or at
    255 bytes. *)
Inductive run_pairs : list Z -> list Z -> Prop :=
| run_pairs_nil : run_pairs [] []
| run_pairs_cons (v : Z) (c : nat) (rest enc : list Z) :
    1 <= c <= 255 ->
    c = 255 \/ head rest <> Some v ->
    run_pairs rest enc ->
    run_pairs (replicate c v ++ rest) (v :: Z.of_nat c :: enc).

(** [pair_list enc]: [enc] is a sequence of (value, count) pairs whose
    counts lie between 1 and 255: any encoding in the format of
    [rle_encode], greedy or not. *)
Inductive pair_list : list Z -> Prop :=
| pair_list_nil : pair_list []
| pair_list_cons (v : Z) (c : nat) (rest : list Z) :
    1 <= c <= 255 ->
    pair_list rest ->
    pair_list (v :: Z.of_nat c :: rest).

(** ** What the proofs speak of *)

(** The byte gathered at index [j] by the passes over [bits]. *)
Definition gathered (padded : list Z) (j : nat) (acc : Z) (bits : list nat) : Z :=
  foldl (fun acc bit =>
           Z.lor acc (uint8_shl (nth (bit + j * 8) padded 0%Z) (7 - Z.of_nat bit)))
        acc bits.

(** [painted g rows cols land]: [g] is a [rows] by [cols] grid whose cell
    [(r, c)] is 1 where [land r c] holds and 0 elsewhere. *)
Definition painted (g : ndarray2) (rows cols : nat) (land : nat -> nat -> bool) : Prop :=
  wf_ndarray2 g /\ shape0 g = rows /\ shape1 g = cols /\
  forall r c, r < rows -> c < cols -> cell g r c = Some (Z.b2z (land r c)).

(** The two index computations of [check], before clamping:
    [int((90 - lat) / res)] and [int((lng + 180) / res)]. *)
Definition row_index (res lat : float) : result Z :=
  do q <- float_truediv (float_of_Z 90 - lat)%float res; int_of_float q.

Definition col_index (res lng : float) : result Z :=
  do q <- float_truediv (lng + float_of_Z 180)%float res; int_of_float q.

(** What [check] answers when it reads cell [(r, c)]. *)
Definition reads (grid : ndarray2) (r c : nat) (expected_land : bool) : bool :=
  match cell grid r c with
  | Some v => Bool.eqb (negb (v =? 0)%Z) expected_land
  | None => false
  end.

(** [check] on one entry of the table of known points. *)
Definition check_point (grid : ndarray2) (res : float) (p : float * float * bool)
    : result bool :=
  let '(lat, lng, expected_land) := p in check grid res lat lng expected_land.

(** Whether, at resolution [res], the index computations of [check] send
    every sample latitude of the rows below [rows] back to its row, and
    every sample longitude of the columns below [cols] back to its
    column. *)
Definition rows_invert (res : float) (rows : nat) : bool :=
  forallb (fun row =>
    forallb (fun yo =>
      match row_index res (sample_lat res row yo) with
      | Ok r => (r =? Z.of_nat row)%Z
      | Raise _ => false
      end) offsets) (seq 0 rows).

Definition cols_invert (res : float) (cols : nat) : bool :=
  forallb (fun col =>
    forallb (fun xo =>
      match col_index res (sample_lng res col xo) with
      | Ok c => (c =? Z.of_nat col)%Z
      | Raise _ => false
      end) offsets) (seq 0 cols).

(** * Proofs *)

(** Linear arithmetic with division and remainder by constants. *)
Ltac div_lia := zify; Z.to_euclidean_division_equations; lia.

(** Case analysis on the comparisons of a goal. *)
Ltac cases_lia :=
  repeat match goal with
         | |- context [?a <? ?b] => destruct (Nat.ltb_spec a b)
         | |- context [?a =? ?b] => destruct (Nat.eqb_spec a b)
         end;
  simpl; try done; try lia.

(** ** The run-length encoder *)

Lemma scan_run_step data i value count :
  scan_run data i value count =
  if run_continues data i value count
  then scan_run data i value (count + 1) else count.
Proof.
  funelim (scan_run data i value count).
  - rewrite Hgo. reflexivity.
  - rewrite Hstop. reflexivity.
Qed.

Lemma rle_loop_step data i out :
  rle_loop data i out =
  if i <? length data then
    match data !! i with
    | None => Raise IndexError
    | Some value =>
        let count := scan_run data i value 1 in
        do out1 <- bytearray_append out value;
        do out2 <- bytearray_append out1 (Z.of_nat count);
        rle_loop data (i + count) out2
    end
  else Ok out.
Proof.
  funelim (rle_loop data i out).
  - rewrite Hlt. reflexivity.
  - rewrite Hge. reflexivity.
Qed.

Lemma run_continues_true data i value count :
  run_continues data i value count = true ->
  data !! (i + count) = Some value /\ count < 255.
Proof.
  unfold run_continues.
  destruct (i + count <? length data); [|done].
  destruct (data !! (i + count)) as [w|]; [|done].
  intros [Hw Hc]%andb_prop.
  apply Z.eqb_eq in Hw as ->. apply Nat.ltb_lt in Hc. done.
Qed.

Lemma run_continues_false data i value count :
  run_continues data i value count = false ->
  255 <= count \/ data !! (i + count) <> Some value.
Proof.
  unfold run_continues.
  destruct (i + count <? length data) eqn:Hlen.
  - destruct (data !! (i + count)) as [w|]; [|by right].
    intros [Hw|Hc]%andb_false_iff.
    + right. apply Z.eqb_neq in Hw. congruence.
    + left. apply Nat.ltb_ge in Hc. done.
  - intros _. right. apply Nat.ltb_ge in Hlen.
    rewrite lookup_ge_None_2; done.
Qed.

(** The inner loop stops on the longest run of [value] from [i], cut at
    255. *)
Lemma scan_run_spec data i value count :
  count <= 255 ->
  count <= scan_run data i value count <= 255 /\
  (forall k, count <= k < scan_run data i value count ->
             data !! (i + k) = Some value) /\
  (scan_run data i value count = 255 \/
   data !! (i + scan_run data i value count) <> Some value).
Proof.
  funelim (scan_run data i value count); intros Hc.
  - pose proof (run_continues_true _ _ _ _ Hgo) as [Hv Hlt].
    destruct H as (Hr & Hall & Hmax); [lia|].
    split_and!; [lia|lia| |done].
    intros k Hk. destruct (decide (k = count)) as [->|]; [done|].
    apply Hall. lia.
  - pose proof (run_continues_false _ _ _ _ Hstop) as Hmax.
    split_and!; [lia|lia| |].
    + intros k Hk. lia.
    + destruct Hmax; [left; lia|by right].
Qed.

Lemma drop_run (data : list Z) i c v :
  (forall k, k < c -> data !! (i + k) = Some v) ->
  drop i data = replicate c v ++ drop (i + c) data.
Proof.
  revert i. induction c as [|c IH]; intros i Hall.
  - rewrite Nat.add_0_r. done.
  - rewrite (drop_S _ v i); [|rewrite <- (Nat.add_0_r i); apply Hall; lia].
    simpl. f_equal. rewrite <- Nat.add_succ_comm. apply IH.
    intros k Hk. rewrite Nat.add_succ_comm. apply Hall. lia.
Qed.

Lemma bytearray_append_ok out v :
  (0 <= v < 256)%Z -> bytearray_append out v = Ok (out ++ [v]).
Proof.
  intros Hv. unfold bytearray_append, in_byte_range.
  rewrite (proj2 (Z.leb_le _ _)), (proj2 (Z.ltb_lt _ _)) by lia. done.
Qed.

(** From any index, the outer loop appends to [out] the run pairs of the
    bytes that are left. *)
Lemma rle_loop_spec data :
  is_bytes data ->
  forall n i out, length data - i = n ->
    exists enc, rle_loop data i out = Ok (out ++ enc) /\
                run_pairs (drop i data) enc.
Proof.
  intros Hdata n. induction n as [n IH] using lt_wf_ind.
  intros i out Hn. rewrite rle_loop_step.
  destruct (i <? length data) eqn:Hi.
  - apply Nat.ltb_lt in Hi.
    destruct (lookup_lt_is_Some_2 data i Hi) as [value Hvalue].
    rewrite Hvalue. cbv zeta.
    pose proof (scan_run_spec data i value 1) as (Hc & Hall & Hmax); [lia|].
    set (count := scan_run data i value 1) in *.
    assert (Hrun : forall k, k < count -> data !! (i + k) = Some value).
    { intros k Hk. destruct k as [|k]; [by rewrite Nat.add_0_r|].
      apply Hall. lia. }
    assert (Hend : i + count <= length data).
    { pose proof (Hrun (count - 1)) as Hlast.
      apply lookup_lt_Some in Hlast; lia. }
    rewrite bytearray_append_ok
      by (eapply (Forall_lookup_1 _ _ _ _ Hdata); eassumption).
    simpl. rewrite bytearray_append_ok by lia. simpl.
    destruct (IH (length data - (i + count)) ltac:(lia) (i + count)
                ((out ++ [value]) ++ [Z.of_nat count]) eq_refl)
      as (enc & Henc & Hpairs).
    exists (value :: Z.of_nat count :: enc). split.
    + rewrite Henc. f_equal. rewrite <- !app_assoc. done.
    + rewrite (drop_run data i count value Hrun).
      constructor; [lia| |done].
      destruct Hmax as [?|Hne]; [by left|right].
      rewrite head_lookup, lookup_drop, Nat.add_0_r. done.
  - apply Nat.ltb_ge in Hi. exists []. split.
    + by rewrite app_nil_r.
    + rewrite drop_ge by done. constructor.
Qed.

Lemma rle_encode_spec data :
  is_bytes data ->
  exists enc, rle_encode data = Ok enc /\ run_pairs data enc.
Proof.
  intros Hdata.
  destruct (rle_loop_spec data Hdata _ 0 [] eq_refl) as (enc & Henc & Hpairs).
  exists enc. done.
Qed.

(** *** Consequences of [run_pairs] *)

Lemma run_pairs_decode data enc : run_pairs data enc -> rle_decode enc = data.
Proof.
  induction 1 as [|v c rest enc Hc Hmax Hrest IH]; [done|].
  simpl. rewrite Nat2Z.id, IH. done.
Qed.

Lemma run_pairs_even data enc : run_pairs data enc -> Nat.Even (length enc).
Proof.
  induction 1 as [|v c rest enc Hc Hmax Hrest [k Hk]].
  - exists 0. done.
  - exists (S k). simpl. lia.
Qed.

Lemma run_pairs_counts data enc :
  run_pairs data enc ->
  Forall (fun c => (1 <= c <= 255)%Z) (count_bytes enc).
Proof.
  induction 1 as [|v c rest enc Hc Hmax Hrest IH]; simpl.
  - constructor.
  - constructor; [lia|done].
Qed.

Lemma run_pairs_sum data enc :
  run_pairs data enc -> sum_Z (count_bytes enc) = Z.of_nat (length data).
Proof.
  induction 1 as [|v c rest enc Hc Hmax Hrest IH]; [done|].
  simpl. fold (sum_Z (count_bytes enc)).
  rewrite IH, length_app, length_replicate. lia.
Qed.

Lemma run_pairs_bytes data enc :
  is_bytes data -> run_pairs data enc -> is_bytes enc.
Proof.
  intros Hdata Hpairs. induction Hpairs as [|v c rest enc Hc Hmax Hrest IH].
  - constructor.
  - apply Forall_app in Hdata as [Hrun Hdata].
    constructor; [|constructor; [lia|by apply IH]].
    destruct c as [|c]; [lia|]. by inversion Hrun.
Qed.

(** The run pairs of a byte sequence are unique. *)
Lemma run_pairs_inj data enc1 enc2 :
  run_pairs data enc1 -> run_pairs data enc2 -> enc1 = enc2.
Proof.
  intros H1. revert enc2.
  induction H1 as [|v c rest enc Hc Hmax Hrest IH]; intros enc2 H2.
  - inversion H2 as [|v' c' rest' enc' Hc' Hmax' Hrest' Heq]; [done|].
    destruct c'; [lia|done].
  - inversion H2 as [Heq|v' c' rest' enc' Hc' Hmax' Hrest' Heq].
    { destruct c; [lia|done]. }
    assert (v' = v) as ->.
    { destruct c, c'; try lia. simpl in Heq. congruence. }
    assert (c' = c) as ->.
    { destruct (Nat.lt_trichotomy c c') as [Hlt|[->|Hlt]]; [|done|].
      - exfalso. replace c' with (c + (c' - c)) in Heq by lia.
        rewrite replicate_add, <- app_assoc in Heq.
        apply app_inv_head in Heq. subst rest.
        destruct Hmax as [->|Hne]; [lia|].
        destruct (c' - c) eqn:E; [lia|]. by apply Hne.
      - exfalso. replace c with (c' + (c - c')) in Heq by lia.
        rewrite replicate_add, <- app_assoc in Heq.
        apply app_inv_head in Heq. subst rest'.
        destruct Hmax' as [->|Hne]; [lia|].
        destruct (c - c') eqn:E; [lia|]. by apply Hne. }
    apply app_inv_head in Heq. subst rest'.
    f_equal. f_equal. by apply IH.
Qed.

(** *** The properties of [rle_encode] *)

Lemma is_bytes_replicate n v : (0 <= v < 256)%Z -> is_bytes (replicate n v).
Proof. intros Hv. apply Forall_replicate. done. Qed.

Lemma rle_encode_nil : rle_encode [] = Ok [].
Proof. unfold rle_encode. rewrite rle_loop_step. done. Qed.

(** C5: decoding the output of [rle_encode] (each pair expanded into
    [count] copies of [value], in order) gives back the byte sequence, and
    the empty sequence encodes to the empty sequence. *)
Theorem rle_decode_encode (B : list Z) (HB : is_bytes B) :
  (exists enc, rle_encode B = Ok enc /\ rle_decode enc = B) /\
  rle_encode [] = Ok [].
Proof.
  split; [|apply rle_encode_nil].
  destruct (rle_encode_spec B HB) as (enc & Henc & Hpairs).
  exists enc. split; [done|]. by apply run_pairs_decode.
Qed.

Lemma rle_decode_encode_witness :
  (exists enc, rle_encode [7; 7; 0; 255; 255]%Z = Ok enc /\
               rle_decode enc = [7; 7; 0; 255; 255]%Z) /\
  rle_encode [] = Ok [].
Proof.
  apply (rle_decode_encode [7; 7; 0; 255; 255]%Z).
  repeat constructor; lia.
Defined.

(** C7: [rle_encode] emits one (value, count) pair per maximal run of
    equal bytes, a run being cut at 255 bytes and the rest of it encoded
    by further pairs with the same value; 300 copies of a byte [v] encode
    as the four bytes [v, 255, v, 45]. *)
Theorem rle_encode_run_cap (B : list Z) (v : Z)
    (HB : is_bytes B) (Hv : (0 <= v < 256)%Z) :
  (exists enc, rle_encode B = Ok enc /\ run_pairs B enc) /\
  rle_encode (replicate 300 v) = Ok [v; 255; v; 45]%Z.
Proof.
  split; [by apply rle_encode_spec|].
  destruct (rle_encode_spec (replicate 300 v)) as (enc & Henc & Hpairs);
    [by apply is_bytes_replicate|].
  rewrite Henc. f_equal. apply (run_pairs_inj _ _ _ Hpairs).
  change (replicate 300 v) with (replicate (255 + 45) v).
  rewrite replicate_add, <- (app_nil_r (replicate 45 v)).
  apply (run_pairs_cons v 255); [lia|by left|].
  apply (run_pairs_cons v 45); [lia|by right|].
  constructor.
Qed.

Lemma rle_encode_run_cap_witness :
  (exists enc, rle_encode [1; 1; 2]%Z = Ok enc /\ run_pairs [1; 1; 2]%Z enc) /\
  rle_encode (replicate 300 9%Z) = Ok [9; 255; 9; 45]%Z.
Proof.
  apply (rle_encode_run_cap [1; 1; 2]%Z 9%Z).
  - repeat constructor; lia.
  - lia.
Defined.

(** C10: the output of [rle_encode] has even length, each of its count
    bytes lies between 1 and 255, and the count bytes add up to the
    length of the input. *)
Theorem rle_encode_counts (B : list Z) (HB : is_bytes B) :
  exists enc, rle_encode B = Ok enc /\
    Nat.Even (length enc) /\
    Forall (fun c => (1 <= c <= 255)%Z) (count_bytes enc) /\
    sum_Z (count_bytes enc) = Z.of_nat (length B).
Proof.
  destruct (rle_encode_spec B HB) as (enc & Henc & Hpairs).
  exists enc. split_and!; [done| | |].
  - by eapply run_pairs_even.
  - by eapply run_pairs_counts.
  - by apply run_pairs_sum.
Qed.

Lemma rle_encode_counts_witness :
  exists enc, rle_encode [5; 5; 5; 6]%Z = Ok enc /\
    Nat.Even (length enc) /\
    Forall (fun c => (1 <= c <= 255)%Z) (count_bytes enc) /\
    sum_Z (count_bytes enc) = Z.of_nat (length [5; 5; 5; 6]%Z).
Proof.
  apply (rle_encode_counts [5; 5; 5; 6]%Z).
  repeat constructor; lia.
Defined.

(** ** The bit-packer *)

Lemma testbit_uint8_shl (x s t : Z) :
  x = 0%Z \/ x = 1%Z -> (0 <= s)%Z -> (0 <= t < 8)%Z ->
  Z.testbit (uint8_shl x s) t = ((x =? 1) && (t =? s))%Z.
Proof.
  intros Hx Hs Ht. unfold uint8_shl.
  rewrite Z.land_spec, Z.shiftl_spec by lia.
  change 255%Z with (Z.ones 8). rewrite Z.ones_spec_low, andb_true_r by lia.
  destruct Hx as [-> | ->]; simpl.
  - apply Z.testbit_0_l.
  - destruct (Z.eqb_spec t s) as [-> | Hne].
    + by rewrite Z.sub_diag.
    + destruct (Z.lt_ge_cases (t - s) 0) as [Hneg | Hpos].
      * by apply Z.testbit_neg_r.
      * apply Z.bits_above_log2; simpl; lia.
Qed.

Lemma uint8_shl_range x k : (0 <= uint8_shl x k < 256)%Z.
Proof.
  unfold uint8_shl. change 255%Z with (Z.ones 8).
  rewrite Z.land_ones by lia. apply Z.mod_pos_bound. lia.
Qed.

Lemma lor_byte_range a b :
  (0 <= a < 256)%Z -> (0 <= b < 256)%Z -> (0 <= Z.lor a b < 256)%Z.
Proof.
  intros Ha Hb. split; [apply Z.lor_nonneg; lia|].
  destruct (decide (Z.lor a b = 0%Z)) as [->|Hnz]; [lia|].
  assert (0 <= Z.lor a b)%Z by (apply Z.lor_nonneg; lia).
  change 256%Z with (2 ^ 8)%Z. apply Z.log2_lt_pow2; [lia|].
  rewrite Z.log2_lor by lia.
  assert (forall c, 0 <= c < 256 -> Z.log2 c < 8)%Z as Hlog.
  { intros c Hc. destruct (decide (c = 0%Z)) as [->|]; [done|].
    apply Z.log2_lt_pow2; lia. }
  pose proof (Hlog a Ha). pose proof (Hlog b Hb). lia.
Qed.

(** *** Slices *)

Lemma strided_length (a : list Z) bit :
  bit < 8 -> length a mod 8 = 0 -> length (strided a bit 8) = length a / 8.
Proof.
  intros Hbit Hlen. unfold strided. rewrite length_fmap, length_seq.
  div_lia.
Qed.

Lemma strided_lookup (a : list Z) start step j :
  j < length (strided a start step) ->
  strided a start step !! j = Some (nth (start + j * step) a 0%Z).
Proof.
  unfold strided. rewrite length_fmap, length_seq. intros Hj.
  rewrite list_lookup_fmap, lookup_seq_lt by done. done.
Qed.

Lemma set_prefix_zeros_nth (flat : list Z) n i :
  nth i (set_prefix (np_zeros n) flat) 0%Z = nth i flat 0%Z.
Proof.
  unfold set_prefix, np_zeros. rewrite drop_replicate.
  destruct (decide (i < length flat)) as [Hi|Hi].
  - by rewrite app_nth1.
  - rewrite app_nth2 by lia. rewrite (nth_overflow flat) by lia.
    destruct (decide (i - length flat < n - length flat)) as [Hin|Hout].
    + apply nth_lookup_Some with (d := 0%Z).
      by rewrite lookup_replicate_2.
    + apply nth_overflow. rewrite length_replicate. lia.
Qed.

Lemma set_prefix_zeros_length (flat : list Z) n :
  length flat <= n -> length (set_prefix (np_zeros n) flat) = n.
Proof.
  intros Hn. unfold set_prefix, np_zeros.
  rewrite length_app, length_drop, length_replicate. lia.
Qed.

(** *** One packed byte *)

Lemma ior_shl_length packed bits k :
  length bits = length packed -> length (ior_shl packed bits k) = length packed.
Proof.
  intros Hlen. unfold ior_shl. rewrite length_zip_with, length_fmap. lia.
Qed.

Lemma passes_length (padded : list Z) bits packed :
  (forall bit, bit ∈ bits -> length (strided padded bit 8) = length packed) ->
  length (foldl (fun packed bit =>
                   ior_shl packed (strided padded bit 8) (7 - Z.of_nat bit))
                packed bits) = length packed.
Proof.
  revert packed. induction bits as [|bit bits IH]; intros packed Hlen; [done|].
  simpl. rewrite IH.
  - apply ior_shl_length, Hlen. left.
  - intros b Hb. rewrite ior_shl_length by (apply Hlen; left).
    apply Hlen. by right.
Qed.

Lemma passes_lookup (padded : list Z) bits packed j acc :
  (forall bit, bit ∈ bits -> length (strided padded bit 8) = length packed) ->
  packed !! j = Some acc ->
  foldl (fun packed bit =>
           ior_shl packed (strided padded bit 8) (7 - Z.of_nat bit))
        packed bits !! j = Some (gathered padded j acc bits).
Proof.
  revert packed acc. induction bits as [|bit bits IH]; intros packed acc Hlen Hj;
    [done|].
  simpl. apply IH.
  - intros b Hb. rewrite ior_shl_length by (apply Hlen; left).
    apply Hlen. by right.
  - unfold ior_shl. rewrite lookup_zip_with, Hj. simpl.
    rewrite list_lookup_fmap, strided_lookup.
    + done.
    + rewrite Hlen by left. by eapply lookup_lt_Some.
Qed.

Lemma gathered_testbit (padded : list Z) j acc bits t :
  (forall i, nth i padded 0%Z = 0%Z \/ nth i padded 0%Z = 1%Z) ->
  Forall (fun bit => bit < 8) bits ->
  (0 <= t < 8)%Z ->
  Z.testbit (gathered padded j acc bits) t =
  Z.testbit acc t ||
  existsb (fun bit => (nth (bit + j * 8) padded 0 =? 1)%Z &&
                      (t =? 7 - Z.of_nat bit)%Z) bits.
Proof.
  intros Hbool Hbits Ht. revert acc.
  induction Hbits as [|bit bits Hbit Hbits IH]; intros acc; simpl.
  - by rewrite orb_false_r.
  - rewrite IH, Z.lor_spec, testbit_uint8_shl by (done || lia).
    by rewrite orb_assoc.
Qed.

Lemma gathered_range (padded : list Z) j acc bits :
  (0 <= acc < 256)%Z -> (0 <= gathered padded j acc bits < 256)%Z.
Proof.
  revert acc. induction bits as [|bit bits IH]; intros acc Hacc; [done|].
  simpl. apply IH, lor_byte_range; [done|apply uint8_shl_range].
Qed.

(** *** The flattened grid *)

Lemma concat_uniform_length (rows : list (list Z)) cols :
  Forall (fun row => length row = cols) rows ->
  length (concat rows) = length rows * cols.
Proof.
  induction 1 as [|row rows Hrow _ IH]; [done|].
  simpl. rewrite length_app, IH, Hrow. done.
Qed.

Lemma concat_uniform_lookup (rows : list (list Z)) cols r c :
  Forall (fun row => length row = cols) rows ->
  c < cols ->
  concat rows !! (r * cols + c) = rows !! r ≫= (.!! c).
Proof.
  intros Hrows Hc. revert r.
  induction Hrows as [|row rows Hrow _ IH]; intros r; [done|].
  destruct r as [|r]; simpl.
  - rewrite lookup_app_l by lia. done.
  - rewrite lookup_app_r by lia.
    replace (cols + r * cols + c - length row) with (r * cols + c) by lia.
    apply IH.
Qed.

Lemma flatten_length g :
  wf_ndarray2 g -> length (flatten g) = shape0 g * shape1 g.
Proof.
  intros [Hrows Hcols]. unfold flatten.
  rewrite (concat_uniform_length _ _ Hcols), Hrows. done.
Qed.

(** Row-major order: cell [(r, c)] is the cell number [r * cols + c]. *)
Lemma flatten_lookup g r c :
  wf_ndarray2 g -> c < shape1 g ->
  flatten g !! (r * shape1 g + c) = cells g !! r ≫= (.!! c).
Proof. intros [_ Hcols] Hc. by apply concat_uniform_lookup. Qed.

Lemma flatten_boolean g :
  is_boolean g -> Forall (fun v => v = 0%Z \/ v = 1%Z) (flatten g).
Proof.
  unfold is_boolean, flatten. induction 1 as [|row rows Hrow _ IH]; simpl.
  - constructor.
  - apply Forall_app. done.
Qed.

Lemma nth_boolean (flat : list Z) i :
  Forall (fun v => v = 0%Z \/ v = 1%Z) flat ->
  nth i flat 0%Z = 0%Z \/ nth i flat 0%Z = 1%Z.
Proof.
  intros Hflat. destruct (nth_lookup_or_length flat i 0%Z) as [Hi|Hi].
  - by apply (Forall_lookup_1 _ _ _ _ Hflat Hi).
  - left. by apply nth_overflow.
Qed.

(** *** The packed bytes *)

Lemma padded_strided_length (flat : list Z) bit :
  bit < 8 ->
  length (strided (set_prefix (np_zeros ((length flat + 7) / 8 * 8)) flat) bit 8) =
  length (np_zeros ((length flat + 7) / 8 * 8 / 8)).
Proof.
  intros Hbit.
  assert (length (set_prefix (np_zeros ((length flat + 7) / 8 * 8)) flat) =
          (length flat + 7) / 8 * 8) as Hpad
    by (apply set_prefix_zeros_length; div_lia).
  rewrite strided_length; rewrite ?Hpad; [|done|div_lia].
  unfold np_zeros. by rewrite length_replicate.
Qed.

Lemma bitpack_length g : length (bitpack g) = (length (flatten g) + 7) / 8.
Proof.
  unfold bitpack. cbv zeta.
  rewrite passes_length.
  - unfold np_zeros. rewrite length_replicate. div_lia.
  - intros bit Hbit%elem_of_seq. apply padded_strided_length. lia.
Qed.

Lemma existsb_pick (f : nat -> bool) (k s n : nat) :
  existsb (fun bit => f bit && (7 - Z.of_nat k =? 7 - Z.of_nat bit)%Z) (seq s n) =
  if decide (s <= k < s + n) then f k else false.
Proof.
  revert s. induction n as [|n IH]; intros s; simpl.
  - case_decide; [lia|done].
  - rewrite IH. destruct (Z.eqb_spec (7 - Z.of_nat k) (7 - Z.of_nat s)) as [Heq|Hne].
    + assert (k = s) as -> by lia. rewrite andb_true_r.
      rewrite decide_False by lia. rewrite decide_True by lia.
      by rewrite orb_false_r.
    + rewrite andb_false_r. simpl.
      repeat case_decide; (done || lia).
Qed.

(** Bit [7 - i mod 8] of byte [i / 8] is cell [i] of the flattened grid,
    and 0 past its end. *)
Lemma bitpack_testbit g i :
  is_boolean g -> i < 8 * length (bitpack g) ->
  exists byte, bitpack g !! (i / 8) = Some byte /\
    (0 <= byte < 256)%Z /\
    Z.testbit byte (7 - Z.of_nat (i mod 8)) = (nth i (flatten g) 0 =? 1)%Z.
Proof.
  intros Hbool Hi. rewrite bitpack_length in Hi.
  unfold bitpack. cbv zeta.
  set (flat := flatten g) in *. set (padded_len := (length flat + 7) / 8 * 8).
  set (padded := set_prefix (np_zeros padded_len) flat).
  assert (Hnth : forall k, nth k padded 0%Z = nth k flat 0%Z)
    by (intros k; apply set_prefix_zeros_nth).
  exists (gathered padded (i / 8) 0 (seq 0 8)). split; [|split].
  - apply passes_lookup.
    + intros bit Hbit%elem_of_seq. apply padded_strided_length. lia.
    + apply lookup_replicate_2. unfold padded_len. div_lia.
  - apply gathered_range. lia.
  - rewrite gathered_testbit.
    + rewrite Z.testbit_0_l, existsb_pick, orb_false_l.
      rewrite decide_True by div_lia.
      rewrite Hnth. do 2 f_equal. div_lia.
    + intros k. rewrite Hnth. apply nth_boolean, flatten_boolean, Hbool.
    + apply Forall_seq. lia.
    + div_lia.
Qed.

Lemma bitpack_bytes g : is_boolean g -> is_bytes (bitpack g).
Proof.
  intros Hbool. apply Forall_lookup_2. intros j byte Hj.
  destruct (bitpack_testbit g (8 * j) Hbool) as (byte' & Hj' & Hrange & _).
  - apply lookup_lt_Some in Hj. lia.
  - replace (8 * j / 8) with j in Hj' by div_lia. congruence.
Qed.

(** C2: [bitpack] turns a boolean grid of [rows * cols] cells into
    [ceil(rows * cols / 8)] bytes; cell [i] in row-major order is bit
    [7 - i mod 8] of byte [i / 8], and the padding bits past the last
    cell are 0. *)
Theorem bitpack_layout (g : ndarray2) (Hwf : wf_ndarray2 g) (Hbool : is_boolean g) :
  is_bytes (bitpack g) /\
  (shape0 g * shape1 g <= 8 * length (bitpack g) < shape0 g * shape1 g + 8) /\
  (forall r c, c < shape1 g ->
     flatten g !! (r * shape1 g + c) = cells g !! r ≫= (.!! c)) /\
  (forall i v, flatten g !! i = Some v ->
     exists byte, bitpack g !! (i / 8) = Some byte /\
       Z.testbit byte (7 - Z.of_nat (i mod 8)) = (v =? 1)%Z) /\
  (forall i, shape0 g * shape1 g <= i < 8 * length (bitpack g) ->
     exists byte, bitpack g !! (i / 8) = Some byte /\
       Z.testbit byte (7 - Z.of_nat (i mod 8)) = false).
Proof.
  pose proof (flatten_length g Hwf) as Hlen.
  pose proof (bitpack_length g) as Hpacked. rewrite Hlen in Hpacked.
  split; [|split; [|split; [|split]]].
  - by apply bitpack_bytes.
  - div_lia.
  - intros r c Hc. by apply flatten_lookup.
  - intros i v Hi.
    destruct (bitpack_testbit g i Hbool) as (byte & Hbyte & _ & Hbit).
    { apply lookup_lt_Some in Hi. div_lia. }
    exists byte. split; [done|].
    by rewrite Hbit, (nth_lookup_Some _ _ _ _ Hi).
  - intros i Hi.
    destruct (bitpack_testbit g i Hbool) as (byte & Hbyte & _ & Hbit); [lia|].
    exists byte. split; [done|].
    rewrite Hbit, nth_overflow by lia. done.
Qed.

Lemma bitpack_layout_witness :
  is_bytes (bitpack sample_grid) /\
  (shape0 sample_grid * shape1 sample_grid <= 8 * length (bitpack sample_grid)
     < shape0 sample_grid * shape1 sample_grid + 8) /\
  (forall r c, c < shape1 sample_grid ->
     flatten sample_grid !! (r * shape1 sample_grid + c) =
     cells sample_grid !! r ≫= (.!! c)) /\
  (forall i v, flatten sample_grid !! i = Some v ->
     exists byte, bitpack sample_grid !! (i / 8) = Some byte /\
       Z.testbit byte (7 - Z.of_nat (i mod 8)) = (v =? 1)%Z) /\
  (forall i, shape0 sample_grid * shape1 sample_grid <= i
             < 8 * length (bitpack sample_grid) ->
     exists byte, bitpack sample_grid !! (i / 8) = Some byte /\
       Z.testbit byte (7 - Z.of_nat (i mod 8)) = false).
Proof.
  apply (bitpack_layout sample_grid).
  - split; [reflexivity|]. repeat constructor.
  - repeat first [lia | constructor].
Defined.

(** *** Unpacking *)

Lemma unpack_byte_length b : length (unpack_byte b) = 8.
Proof. reflexivity. Qed.

Lemma unpack_cons b packed : unpack (b :: packed) = unpack_byte b ++ unpack packed.
Proof. reflexivity. Qed.

Lemma unpack_lookup packed i :
  unpack packed !! i =
  (fun b => Z.b2z (Z.testbit b (7 - Z.of_nat (i mod 8)))) <$> packed !! (i / 8).
Proof.
  revert i. induction packed as [|b packed IH]; intros i; [done|].
  rewrite unpack_cons.
  destruct (decide (i < 8)) as [Hi|Hi].
  - rewrite lookup_app_l by (rewrite unpack_byte_length; done).
    rewrite (Nat.div_small i 8), (Nat.mod_small i 8) by done. simpl.
    unfold unpack_byte. rewrite list_lookup_fmap, lookup_seq_lt by done. done.
  - rewrite lookup_app_r by (rewrite unpack_byte_length; lia).
    rewrite unpack_byte_length, IH.
    replace (i / 8) with (S ((i - 8) / 8)) by div_lia.
    replace ((i - 8) mod 8) with (i mod 8) by div_lia. done.
Qed.

(** C6: unpacking the output of [bitpack], bits read most significant
    first from each byte in order, gives back the boolean grid on its
    [rows * cols] cells. *)
Theorem unpack_bitpack (g : ndarray2) (Hwf : wf_ndarray2 g) (Hbool : is_boolean g) :
  take (shape0 g * shape1 g) (unpack (bitpack g)) = flatten g /\
  (forall r c v, c < shape1 g -> cells g !! r ≫= (.!! c) = Some v ->
     unpack (bitpack g) !! (r * shape1 g + c) = Some v).
Proof.
  pose proof (flatten_length g Hwf) as Hlen.
  assert (Hcell : forall i v, flatten g !! i = Some v ->
                              unpack (bitpack g) !! i = Some v).
  { intros i v Hi. rewrite unpack_lookup.
    destruct (bitpack_testbit g i Hbool) as (byte & Hbyte & _ & Hbit).
    { apply lookup_lt_Some in Hi. rewrite bitpack_length. div_lia. }
    rewrite Hbyte. cbn [fmap option_fmap option_map].
    rewrite Hbit, (nth_lookup_Some _ _ _ _ Hi).
    pose proof (Forall_lookup_1 _ _ _ _ (flatten_boolean g Hbool) Hi) as [->| ->];
      done. }
  split.
  - apply list_eq. intros i.
    destruct (decide (i < shape0 g * shape1 g)) as [Hi|Hi].
    + rewrite lookup_take_lt by done.
      destruct (lookup_lt_is_Some_2 (flatten g) i) as [v Hv]; [lia|].
      rewrite Hv. by apply Hcell.
    + rewrite lookup_take_ge by lia.
      symmetry. apply lookup_ge_None_2. lia.
  - intros r c v Hc Hv. apply Hcell. by rewrite flatten_lookup.
Qed.

Lemma unpack_bitpack_witness :
  take (shape0 sample_grid * shape1 sample_grid) (unpack (bitpack sample_grid)) =
    flatten sample_grid /\
  (forall r c v, c < shape1 sample_grid ->
     cells sample_grid !! r ≫= (.!! c) = Some v ->
     unpack (bitpack sample_grid) !! (r * shape1 sample_grid + c) = Some v).
Proof.
  apply (unpack_bitpack sample_grid).
  - split; [reflexivity|]. repeat constructor.
  - repeat first [lia | constructor].
Defined.

(** *** The all-water scenario *)

Lemma all_water_flatten g :
  wf_ndarray2 g ->
  Forall (Forall (fun v => v = 0%Z)) (cells g) ->
  flatten g = replicate (shape0 g * shape1 g) 0%Z.
Proof.
  intros Hwf Hwater. symmetry. apply replicate_as_Forall. split.
  - by apply flatten_length.
  - unfold flatten. induction Hwater as [|row rows Hrow _ IH]; simpl.
    + constructor.
    + apply Forall_app. split; [|done].
      eapply Forall_impl; [exact Hrow|]. done.
Qed.

(** C8: an all-water grid of 16 cells packs to the two bytes [0x00, 0x00],
    which run-length encode to [0x00, 0x02], which base64-encode to
    ["AAI="]. *)
Theorem all_water_16 (g : ndarray2) (Hwf : wf_ndarray2 g)
    (Hwater : Forall (Forall (fun v => v = 0%Z)) (cells g))
    (Hsize : shape0 g * shape1 g = 16) :
  bitpack g = [0; 0]%Z /\
  rle_encode [0; 0]%Z = Ok [0; 2]%Z /\
  Base64.b64encode [0; 2]%Z = "AAI="%string.
Proof.
  split; [|split].
  - unfold bitpack. rewrite (all_water_flatten g Hwf Hwater), Hsize.
    reflexivity.
  - vm_compute. reflexivity.
  - reflexivity.
Qed.

Lemma all_water_16_witness :
  bitpack (np_zeros2 2 8) = [0; 0]%Z /\
  rle_encode [0; 0]%Z = Ok [0; 2]%Z /\
  Base64.b64encode [0; 2]%Z = "AAI="%string.
Proof.
  apply (all_water_16 (np_zeros2 2 8)).
  - split; [reflexivity|]. repeat constructor.
  - repeat constructor.
  - reflexivity.
Defined.

(** ** The rasterizer *)

(** *** Loops *)

Lemma for_in_seq_invariant {St : Type} (I : nat -> St -> Prop)
    (body : nat -> St -> result St) (n start : nat) (s0 : St) :
  I start s0 ->
  (forall k s, start <= k < start + n -> I k s ->
               exists s', body k s = Ok s' /\ I (1 + k) s') ->
  exists s', for_in (seq start n) s0 body = Ok s' /\ I (start + n) s'.
Proof.
  revert start s0. induction n as [|n IH]; intros start s0 Hinit Hstep.
  - exists s0. rewrite Nat.add_0_r. done.
  - destruct (Hstep start s0) as (s1 & Hbody & Hs1); [lia|done|].
    destruct (IH (1 + start) s1) as (s' & Hloop & Hs'); [done| |].
    { intros k s Hk. apply Hstep. lia. }
    exists s'. simpl. rewrite Hbody. simpl.
    replace (start + S n) with (1 + start + n) by lia. done.
Qed.

Section early_exit.
Context {A : Type} (hit : A -> A -> bool).

(** The inner loop: [is_land] becomes true at the first hit. *)
Lemma inner_loop_any (yo : A) (xs : list A) :
  for_break xs false (fun xo is_land =>
    if hit yo xo then Break true else Continue is_land) =
  existsb (hit yo) xs.
Proof.
  induction xs as [|xo xs IH]; [done|].
  simpl. destruct (hit yo xo); done.
Qed.

Lemma outer_loop_stops (ys xs : list A) :
  for_break ys true (fun yo is_land =>
    if is_land then Break is_land
    else Continue (for_break xs is_land (fun xo is_land =>
           if hit yo xo then Break true else Continue is_land))) = true.
Proof. destruct ys; done. Qed.

(** The two loops together: breaking out early does not change the
    outcome. *)
Lemma outer_loop_any (ys xs : list A) :
  for_break ys false (fun yo is_land =>
    if is_land then Break is_land
    else Continue (for_break xs is_land (fun xo is_land =>
           if hit yo xo then Break true else Continue is_land))) =
  existsb (fun yo => existsb (hit yo) xs) ys.
Proof.
  induction ys as [|yo ys IH]; [done|].
  simpl. rewrite inner_loop_any.
  destruct (existsb (hit yo) xs); [apply outer_loop_stops|apply IH].
Qed.
End early_exit.

(** *** Reading and writing cells *)

Lemma axis_index_in_range n i :
  i < n -> axis_index n (Z.of_nat i) = Ok i.
Proof.
  intros Hi. unfold axis_index.
  rewrite (proj2 (Z.leb_le _ _)), (proj2 (Z.ltb_lt _ _)) by lia.
  simpl. by rewrite Nat2Z.id.
Qed.

Lemma getitem2_cell g r c v :
  r < shape0 g -> c < shape1 g -> cell g r c = Some v ->
  getitem2 g (Z.of_nat r) (Z.of_nat c) = Ok v.
Proof.
  intros Hr Hc Hv. unfold getitem2.
  rewrite !axis_index_in_range by done. simpl.
  unfold cell in Hv. destruct (cells g !! r) as [line|]; [|done].
  simpl in Hv. by rewrite Hv.
Qed.

Lemma setitem2_cell g r c v :
  wf_ndarray2 g -> r < shape0 g -> c < shape1 g ->
  exists g', setitem2 g (Z.of_nat r) (Z.of_nat c) v = Ok g' /\
    wf_ndarray2 g' /\ shape0 g' = shape0 g /\ shape1 g' = shape1 g /\
    forall r' c', cell g' r' c' =
      if decide (r' = r /\ c' = c) then Some v else cell g r' c'.
Proof.
  intros [Hrows Hcols] Hr Hc. unfold setitem2.
  rewrite !axis_index_in_range by done. simpl.
  destruct (lookup_lt_is_Some_2 (cells g) r) as [line Hline]; [lia|].
  pose proof (Forall_lookup_1 _ _ _ _ Hcols Hline) as Hlen. simpl in Hlen.
  rewrite Hline, (proj2 (Nat.ltb_lt _ _)) by lia.
  eexists. split; [done|]. split; [|split; [done|split; [done|]]].
  - split; simpl.
    + by rewrite length_insert.
    + apply Forall_insert; [done|]. by rewrite length_insert.
  - intros r' c'. unfold cell. simpl.
    destruct (decide (r' = r)) as [->|Hne].
    + rewrite list_lookup_insert_eq by lia. simpl.
      destruct (decide (c' = c)) as [->|Hne].
      * rewrite decide_True by done. apply list_lookup_insert_eq. lia.
      * rewrite decide_False by tauto.
        rewrite list_lookup_insert_ne by done. by rewrite Hline.
    + rewrite decide_False by tauto.
      by rewrite list_lookup_insert_ne.
Qed.

(** *** The grid as the loops fill it *)

Lemma painted_ext g rows cols land land' :
  (forall r c, r < rows -> c < cols -> land r c = land' r c) ->
  painted g rows cols land -> painted g rows cols land'.
Proof.
  intros Hext (Hwf & Hrows & Hcols & Hcells).
  split; [done|split; [done|split; [done|]]].
  intros r c Hr Hc. rewrite <- Hext by done. by apply Hcells.
Qed.

Lemma np_zeros2_painted rows cols :
  painted (np_zeros2 rows cols) rows cols (fun _ _ => false).
Proof.
  split; [|split; [done|split; [done|]]].
  - split; simpl.
    + apply length_replicate.
    + apply Forall_replicate, length_replicate.
  - intros r c Hr Hc. unfold cell. simpl.
    rewrite lookup_replicate_2 by done. simpl.
    by rewrite lookup_replicate_2.
Qed.

Lemma painted_inj g g' rows cols land :
  painted g rows cols land -> painted g' rows cols land -> g = g'.
Proof.
  intros ([Hlen Hlines] & Hrows & Hcols & Hcells)
         ([Hlen' Hlines'] & Hrows' & Hcols' & Hcells').
  destruct g as [s0 s1 ls], g' as [s0' s1' ls']. simpl in *. subst.
  f_equal; [done|]. apply list_eq. intros r.
  destruct (decide (r < length ls)) as [Hr|Hr].
  - destruct (lookup_lt_is_Some_2 ls r Hr) as [line Hline].
    destruct (lookup_lt_is_Some_2 ls' r) as [line' Hline']; [lia|].
    rewrite Hline, Hline'. f_equal.
    pose proof (Forall_lookup_1 _ _ _ _ Hlines Hline) as Hl.
    pose proof (Forall_lookup_1 _ _ _ _ Hlines' Hline') as Hl'.
    simpl in Hl, Hl'. apply list_eq. intros c.
    destruct (decide (c < length line)) as [Hc|Hc].
    + specialize (Hcells r c). specialize (Hcells' r c).
      unfold cell in Hcells, Hcells'. simpl in Hcells, Hcells'.
      rewrite Hline in Hcells. rewrite Hline' in Hcells'. simpl in *.
      rewrite Hcells, Hcells' by lia. done.
    + rewrite !lookup_ge_None_2 by lia. done.
  - rewrite !lookup_ge_None_2 by lia. done.
Qed.

Section rasterizer_proofs.
Context `{GeometryEngine}.

Lemma cell_is_land_any prepared res row col :
  cell_is_land prepared res row col =
  existsb (fun yo =>
    existsb (fun xo =>
      contains prepared (Point (sample_lng res col xo) (sample_lat res row yo)))
      offsets) offsets.
Proof.
  unfold cell_is_land.
  apply (outer_loop_any (fun yo xo =>
    contains prepared (Point (sample_lng res col xo) (sample_lat res row yo)))).
Qed.

(** A cell is land exactly when one of its sample points is on land. *)
Lemma cell_is_land_samples prepared res row col :
  cell_is_land prepared res row col = true <->
  exists p, p ∈ sample_points res row col /\ contains prepared p = true.
Proof.
  rewrite cell_is_land_any. unfold sample_points. split.
  - intros (yo & Hyo & (xo & Hxo & Hp)%existsb_exists)%existsb_exists.
    eexists. split; [|exact Hp].
    apply list_elem_of_bind. exists yo. split; [|by apply list_elem_of_In].
    apply list_elem_of_bind. exists xo. split; [|by apply list_elem_of_In].
    apply list_elem_of_singleton. done.
  - intros (p & Hin & Hp).
    apply list_elem_of_bind in Hin as (yo & Hin & Hyo).
    apply list_elem_of_bind in Hin as (xo & Hin & Hxo).
    apply list_elem_of_singleton in Hin as ->.
    apply existsb_exists. exists yo. split; [by apply list_elem_of_In|].
    apply existsb_exists. exists xo. split; [by apply list_elem_of_In|done].
Qed.

(** One pass over the columns fills row [row]. *)
Lemma rasterize_row_painted prepared res rows cols row g :
  row < rows ->
  painted g rows cols (fun r c => (r <? row) && cell_is_land prepared res r c) ->
  exists g', rasterize_row prepared res cols row g = Ok g' /\
    painted g' rows cols
      (fun r c => (r <? 1 + row) && cell_is_land prepared res r c).
Proof.
  intros Hrow Hg. unfold rasterize_row.
  set (land := cell_is_land prepared res) in *.
  destruct (for_in_seq_invariant
    (fun j g => painted g rows cols (fun r c =>
       ((r <? row) || ((r =? row) && (c <? j))) && land r c))
    (fun col grid =>
       if land row col
       then setitem2 grid (Z.of_nat row) (Z.of_nat col) 1%Z
       else Ok grid)
    cols 0 g) as (g' & Hloop & Hg').
  - eapply painted_ext; [|exact Hg].
    intros r c Hr Hc. cases_lia.
  - intros k s Hk (Hwf & Hrows & Hcols & Hcells).
    destruct (land row k) eqn:Hland.
    + destruct (setitem2_cell s row k 1%Z Hwf) as
        (s' & Hset & Hwf' & Hrows' & Hcols' & Hcells'); [lia|lia|].
      exists s'. split; [done|].
      split; [done|split; [congruence|split; [congruence|]]].
      intros r c Hr Hc. rewrite Hcells'. case_decide as Hrc.
      * destruct Hrc as [-> ->]. rewrite Hland. cases_lia.
      * rewrite Hcells by done. do 2 f_equal. cases_lia.
    + exists s. split; [done|].
      split; [done|split; [done|split; [done|]]].
      intros r c Hr Hc. rewrite Hcells by done. do 2 f_equal.
      destruct (decide (r = row /\ c = k)) as [[-> ->]|Hne].
      * rewrite Hland, !andb_false_r. done.
      * cases_lia.
  - exists g'. split; [done|].
    eapply painted_ext; [|exact Hg'].
    intros r c Hr Hc. simpl. cases_lia.
Qed.

(** The progress report is silent, and harmless, unless the row is a
    180th one; then it needs a grid with cells. *)
Lemma report_progress_ok row checked rows cols :
  row < rows -> cols <> 0 \/ row + 1 < 180 ->
  report_progress row checked (rows * cols) = Ok tt.
Proof.
  intros Hrow Hsize. unfold report_progress.
  destruct (Nat.eqb_spec ((row + 1) mod 180) 0) as [Hmod|Hmod]; [|done].
  destruct Hsize as [Hcols|Hsmall]; [|div_lia].
  unfold int_truediv.
  destruct (Z.eqb_spec (Z.of_nat (rows * cols)) 0) as [Hzero|Hzero]; [|done].
  exfalso. apply Nat2Z.inj_iff with (m := 0) in Hzero.
  apply Nat.eq_mul_0 in Hzero. lia.
Qed.

(** The loop over the first [n] rows. *)
Lemma rows_loop_painted merged res rows cols n :
  n <= rows -> cols <> 0 \/ n < 180 ->
  exists grid,
    for_in (seq 0 n) (np_zeros2 rows cols, 0) (fun row '(grid, checked) =>
      do grid <- rasterize_row merged res cols row grid;
      let checked := checked + cols in
      do _ <- report_progress row checked (rows * cols);
      Ok (grid, checked)) = Ok (grid, n * cols) /\
    painted grid rows cols (fun r c => (r <? n) && cell_is_land merged res r c).
Proof.
  intros Hn Hsize.
  destruct (for_in_seq_invariant
    (fun k (st : ndarray2 * nat) =>
       painted (fst st) rows cols (fun r c =>
         (r <? k) && cell_is_land merged res r c) /\
       snd st = k * cols)
    (fun row '(grid, checked) =>
      do grid <- rasterize_row merged res cols row grid;
      let checked := checked + cols in
      do _ <- report_progress row checked (rows * cols);
      Ok (grid, checked))
    n 0 (np_zeros2 rows cols, 0)) as ([grid checked] & Hloop & Hgrid & Hchecked).
  - split; [|done]. simpl.
    eapply painted_ext; [|apply np_zeros2_painted]. done.
  - intros k [g chk] Hk [Hg Hchk]. simpl in Hg, Hchk.
    destruct (rasterize_row_painted merged res rows cols k g) as (g' & -> & Hg');
      [lia|done|].
    cbn [bind]. cbv zeta.
    rewrite report_progress_ok by lia. cbn [bind].
    eexists. split; [done|]. split; [done|]. simpl. lia.
  - exists grid. simpl in Hgrid, Hchecked. subst checked.
    split; [done|done].
Qed.

(** The grid [generate_grid] returns, when it has columns or fewer than
    180 rows. *)
Lemma generate_grid_painted world rows cols res :
  cols <> 0 \/ rows < 180 ->
  exists grid, generate_grid world rows cols res = Ok grid /\
    painted grid rows cols (cell_is_land (unary_union (omap id world)) res).
Proof.
  intros Hsize.
  destruct (rows_loop_painted (unary_union (omap id world)) res rows cols rows)
    as (grid & Hloop & Hgrid); [done|done|].
  exists grid. split.
  { unfold generate_grid, prep. cbv zeta in Hloop |- *. by rewrite Hloop. }
  eapply painted_ext; [|exact Hgrid].
  intros r c Hr Hc. simpl. cases_lia.
Qed.

Lemma for_in_app {A St : Type} (l1 l2 : list A) (s : St) (body : A -> St -> result St) :
  for_in (l1 ++ l2) s body = do s' <- for_in l1 s body; for_in l2 s' body.
Proof.
  revert s. induction l1 as [|a l1 IH]; intros s; [done|].
  simpl. destruct (body a s) as [s'|e]; simpl; [apply IH|done].
Qed.

(** With no column and 180 rows or more, the progress report of row 179
    divides by [total = 0]. *)
Lemma generate_grid_zero_division world rows res :
  180 <= rows -> generate_grid world rows 0 res = Raise ZeroDivisionError.
Proof.
  intros Hrows.
  set (merged := unary_union (omap id world)).
  destruct (rows_loop_painted merged res rows 0 179) as (grid & Hloop & Hgrid);
    [lia|lia|].
  unfold generate_grid, prep. fold merged. cbv zeta in Hloop |- *.
  replace rows with (179 + S (rows - 180)) at 1 by lia.
  rewrite seq_app, Nat.add_0_l, for_in_app, Hloop.
  cbn [bind]. rewrite <- cons_seq. cbn [for_in].
  destruct (rasterize_row_painted merged res rows 0 179 grid) as (g' & -> & _);
    [lia|done|].
  cbn [bind]. cbv zeta.
  assert (report_progress 179 (179 * 0 + 0) (rows * 0) = Raise ZeroDivisionError)
    as ->; [|done].
  rewrite !Nat.mul_0_r. reflexivity.
Qed.
End rasterizer_proofs.

(** *** The properties of [generate_grid] *)

(** C1: each cell of the grid [generate_grid] returns is 1 (land) exactly
    when one of its nine sub-sample points, at the offsets 0.17, 0.5 and
    0.83 on both axes, is contained in the merged geometry, and 0
    otherwise; a hit on the last point tested, at offsets (0.83, 0.83),
    makes the cell land like any other. *)
Theorem generate_grid_cell `{GeometryEngine} (world : dataset)
    (rows cols : nat) (res : float) (row col : nat)
    (Hrow : row < rows) (Hcol : col < cols) :
  length (sample_points res row col) = 9 /\
  exists grid v,
    generate_grid world rows cols res = Ok grid /\
    getitem2 grid (Z.of_nat row) (Z.of_nat col) = Ok v /\
    (v = 0 \/ v = 1)%Z /\
    (v = 1%Z <->
     exists p, p ∈ sample_points res row col /\
               contains (unary_union (omap id world)) p = true) /\
    (contains (unary_union (omap id world))
       (Point (-180.0 + (float_of_nat col + 0.83) * res)
              (90.0 - (float_of_nat row + 0.83) * res)) = true ->
     v = 1%Z).
Proof.
  split; [reflexivity|].
  destruct (generate_grid_painted world rows cols res)
    as (grid & Hgrid & Hwf & Hrows & Hcols & Hcells); [left; lia|].
  set (merged := unary_union (omap id world)) in *.
  exists grid, (Z.b2z (cell_is_land merged res row col)).
  assert (Hland : Z.b2z (cell_is_land merged res row col) = 1%Z <->
                  exists p, p ∈ sample_points res row col /\
                            contains merged p = true).
  { rewrite <- cell_is_land_samples.
    destruct (cell_is_land merged res row col); simpl; split; done. }
  split; [done|]. split; [|split; [|split; [done|]]].
  - apply getitem2_cell; [lia|lia|]. by apply Hcells.
  - destruct (cell_is_land merged res row col); [by right|by left].
  - intros Hlast. apply Hland. eexists. split; [|exact Hlast].
    unfold sample_points, offsets, sample_lng, sample_lat. simpl.
    do 8 right. left.
Qed.

Lemma generate_grid_cell_witness :
  length (sample_points 0.5 1 1) = 9 /\
  exists grid v,
    @generate_grid point_sets [None; Some (islet 0.5 1 1)] 2 2 0.5 = Ok grid /\
    getitem2 grid (Z.of_nat 1) (Z.of_nat 1) = Ok v /\
    (v = 0 \/ v = 1)%Z /\
    (v = 1%Z <->
     exists p, p ∈ sample_points 0.5 1 1 /\
               @contains point_sets
                 (@unary_union point_sets (omap id [None; Some (islet 0.5 1 1)]))
                 p = true) /\
    (@contains point_sets
       (@unary_union point_sets (omap id [None; Some (islet 0.5 1 1)]))
       (Point (-180.0 + (float_of_nat 1 + 0.83) * 0.5)
              (90.0 - (float_of_nat 1 + 0.83) * 0.5)) = true ->
     v = 1%Z).
Proof.
  apply (@generate_grid_cell point_sets [None; Some (islet 0.5 1 1)] 2 2 0.5%float 1 1);
    lia.
Defined.

(** The early-exit scenario, run: land at the last sample point of cell
    (1, 1) only. *)
Example islet_is_land :
  @generate_grid point_sets [None; Some (islet 0.5 1 1)] 2 2 0.5 =
  Ok (Ndarray2 2 2 [[0; 0]; [0; 1]]%Z).
Proof. vm_compute. reflexivity. Qed.

(** The rasterizer with no land: an empty union paints nothing. *)
Lemma painted_no_land `{GeometryEngine} grid rows cols res :
  (forall p, contains (unary_union []) p = false) ->
  painted grid rows cols (cell_is_land (unary_union []) res) ->
  grid = np_zeros2 rows cols.
Proof.
  intros Hempty Hpainted.
  apply (painted_inj _ _ rows cols (fun _ _ => false)); [|apply np_zeros2_painted].
  eapply painted_ext; [|exact Hpainted].
  intros r c _ _. simpl.
  destruct (cell_is_land (unary_union []) res r c) eqn:Hland; [|done].
  apply cell_is_land_samples in Hland as (p & _ & Hp).
  rewrite Hempty in Hp. done.
Qed.

(** C9, as the code has it: a dataset with no usable geometry raises no
    [EmptyGeometryError]; the union of no geometries, which contains no
    point, is rasterized, and the grid is all water. The one exception
    [generate_grid] can raise is the [ZeroDivisionError] of its progress
    report, on a grid with no column and 180 rows or more. *)
Theorem no_usable_geometry `{GeometryEngine} (world : dataset)
    (rows cols : nat) (res : float)
    (Hnone : Forall (fun record => record = None) world)
    (Hempty : forall p, contains (unary_union []) p = false) :
  generate_grid world rows cols res =
    (if (cols =? 0) && (180 <=? rows) then Raise ZeroDivisionError
     else Ok (np_zeros2 rows cols)) /\
  generate_grid world rows cols res <> Raise EmptyGeometryError.
Proof.
  assert (omap id world = []) as Hgeoms.
  { induction Hnone as [|record world -> _ IH]; [done|]. simpl. exact IH. }
  assert (generate_grid world rows cols res =
          (if (cols =? 0) && (180 <=? rows) then Raise ZeroDivisionError
           else Ok (np_zeros2 rows cols))) as ->.
  { destruct (Nat.eqb_spec cols 0) as [->|Hcols], (Nat.leb_spec 180 rows)
      as [Hrows|Hrows]; simpl.
    - by apply generate_grid_zero_division.
    - destruct (generate_grid_painted world rows 0 res)
        as (grid & -> & Hpainted); [right; lia|].
      f_equal. rewrite Hgeoms in Hpainted. by eapply painted_no_land.
    - destruct (generate_grid_painted world rows cols res)
        as (grid & -> & Hpainted); [by left|].
      f_equal. rewrite Hgeoms in Hpainted. by eapply painted_no_land.
    - destruct (generate_grid_painted world rows cols res)
        as (grid & -> & Hpainted); [by left|].
      f_equal. rewrite Hgeoms in Hpainted. by eapply painted_no_land. }
  split; [done|]. by destruct ((cols =? 0) && (180 <=? rows)).
Qed.

Lemma no_usable_geometry_witness :
  @generate_grid point_sets [None; None] 3 4 0.1 =
    (if (4 =? 0) && (180 <=? 3) then Raise ZeroDivisionError
     else Ok (np_zeros2 3 4)) /\
  @generate_grid point_sets [None; None] 3 4 0.1 <> Raise EmptyGeometryError.
Proof.
  apply (@no_usable_geometry point_sets [None; None] 3 4 0.1%float).
  - repeat constructor.
  - reflexivity.
Defined.

(** With no usable geometry and no column, 180 rows are enough for the
    progress report to fail. *)
Example no_usable_geometry_no_column :
  @generate_grid point_sets [None] 180 0 0.1 = Raise ZeroDivisionError.
Proof. by apply generate_grid_zero_division. Qed.

(** C9, as the specification has it, fails: with no usable geometry
    [generate_grid] returns a grid, it does not raise
    [EmptyGeometryError]. *)
Lemma empty_dataset_is_rasterized :
  Forall (fun record => record = None) ([None; None] : @dataset point_sets) /\
  @generate_grid point_sets [None; None] 2 3 0.1 = Ok (np_zeros2 2 3) /\
  @generate_grid point_sets [None; None] 2 3 0.1 <> Raise EmptyGeometryError.
Proof.
  split; [repeat constructor|]. split; [vm_compute; reflexivity|].
  vm_compute. discriminate.
Qed.

(** ** The validator *)

Lemma getitem2_in_range g (r c : Z) :
  wf_ndarray2 g ->
  (0 <= r < Z.of_nat (shape0 g))%Z -> (0 <= c < Z.of_nat (shape1 g))%Z ->
  exists v, cell g (Z.to_nat r) (Z.to_nat c) = Some v /\ getitem2 g r c = Ok v.
Proof.
  intros [Hrows Hcols] Hr Hc.
  destruct (lookup_lt_is_Some_2 (cells g) (Z.to_nat r)) as [line Hline]; [lia|].
  pose proof (Forall_lookup_1 _ _ _ _ Hcols Hline) as Hlen. simpl in Hlen.
  destruct (lookup_lt_is_Some_2 line (Z.to_nat c)) as [v Hv]; [lia|].
  assert (cell g (Z.to_nat r) (Z.to_nat c) = Some v) as Hcell
    by (unfold cell; rewrite Hline; done).
  exists v. split; [done|].
  rewrite <- (Z2Nat.id r), <- (Z2Nat.id c) by lia.
  apply getitem2_cell; (done || lia).
Qed.

Lemma float_truediv_raises x y e :
  float_truediv x y = Raise e -> e = ZeroDivisionError.
Proof. unfold float_truediv. destruct (y =? 0)%float; congruence. Qed.

Lemma int_of_float_raises x e :
  int_of_float x = Raise e -> e = ValueError \/ e = OverflowError.
Proof.
  unfold int_of_float. destruct (Prim2SF x); intros [= <-]; auto.
Qed.

(** C3, as the code has it: on a grid with at least one row and one
    column, [check] never fails on an index; and when the two index
    computations [int((90 - lat) / res)] and [int((lng + 180) / res)]
    give integers, it clamps them to the rows and columns of the grid and
    reports success exactly when the cell there, read as a boolean, is the
    expected one. *)
Theorem check_clamped (grid : ndarray2) (res lat lng : float) (expected_land : bool)
    (Hwf : wf_ndarray2 grid) (Hrows : 0 < shape0 grid) (Hcols : 0 < shape1 grid) :
  check grid res lat lng expected_land <> Raise IndexError /\
  forall r c : Z,
    (do q <- float_truediv (float_of_Z 90 - lat)%float res; int_of_float q) = Ok r ->
    (do q <- float_truediv (lng + float_of_Z 180)%float res; int_of_float q) = Ok c ->
    exists (row col : nat) (v : Z) (ok : bool),
      Z.of_nat row = Z.max 0 (Z.min (Z.of_nat (shape0 grid) - 1) r) /\
      Z.of_nat col = Z.max 0 (Z.min (Z.of_nat (shape1 grid) - 1) c) /\
      row < shape0 grid /\ col < shape1 grid /\
      cell grid row col = Some v /\
      check grid res lat lng expected_land = Ok ok /\
      (ok = true <-> negb (v =? 0)%Z = expected_land).
Proof.
  assert (Hread : forall r c : Z,
    exists v,
      cell grid (Z.to_nat (Z.max 0 (Z.min (Z.of_nat (shape0 grid) - 1) r)))
                (Z.to_nat (Z.max 0 (Z.min (Z.of_nat (shape1 grid) - 1) c))) = Some v /\
      getitem2 grid (Z.max 0 (Z.min (Z.of_nat (shape0 grid) - 1) r))
                    (Z.max 0 (Z.min (Z.of_nat (shape1 grid) - 1) c)) = Ok v).
  { intros r c. apply getitem2_in_range; [done|lia|lia]. }
  split.
  - unfold check.
    destruct (float_truediv (float_of_Z 90 - lat) res) as [qr|e] eqn:Hqr;
      simpl; [|by rewrite (float_truediv_raises _ _ _ Hqr)].
    destruct (int_of_float qr) as [r|e] eqn:Hr;
      simpl; [|by destruct (int_of_float_raises _ _ Hr) as [-> | ->]].
    destruct (float_truediv (lng + float_of_Z 180) res) as [qc|e] eqn:Hqc;
      simpl; [|by rewrite (float_truediv_raises _ _ _ Hqc)].
    destruct (int_of_float qc) as [c|e] eqn:Hc;
      simpl; [|by destruct (int_of_float_raises _ _ Hc) as [-> | ->]].
    destruct (Hread r c) as (v & _ & ->). done.
  - intros r c Hr Hc.
    destruct (Hread r c) as (v & Hcell & Hget).
    exists (Z.to_nat (Z.max 0 (Z.min (Z.of_nat (shape0 grid) - 1) r))),
           (Z.to_nat (Z.max 0 (Z.min (Z.of_nat (shape1 grid) - 1) c))),
           v, (Bool.eqb (negb (v =? 0)%Z) expected_land).
    split; [lia|]. split; [lia|]. split; [lia|]. split; [lia|].
    split; [done|]. split.
    + unfold check.
      destruct (float_truediv (float_of_Z 90 - lat) res) as [qr|e]; [|done].
      cbn [bind] in Hr |- *. rewrite Hr. cbn [bind].
      destruct (float_truediv (lng + float_of_Z 180) res) as [qc|e]; [|done].
      cbn [bind] in Hc |- *. rewrite Hc. cbn [bind]. rewrite Hget. done.
    + apply Bool.eqb_true_iff.
Qed.

Lemma check_clamped_witness :
  check sample_grid 0.1 37.77 (-122.42) true <> Raise IndexError /\
  forall r c : Z,
    (do q <- float_truediv (float_of_Z 90 - 37.77)%float 0.1; int_of_float q) = Ok r ->
    (do q <- float_truediv (-122.42 + float_of_Z 180)%float 0.1; int_of_float q) = Ok c ->
    exists (row col : nat) (v : Z) (ok : bool),
      Z.of_nat row = Z.max 0 (Z.min (Z.of_nat (shape0 sample_grid) - 1) r) /\
      Z.of_nat col = Z.max 0 (Z.min (Z.of_nat (shape1 sample_grid) - 1) c) /\
      row < shape0 sample_grid /\ col < shape1 sample_grid /\
      cell sample_grid row col = Some v /\
      check sample_grid 0.1 37.77 (-122.42) true = Ok ok /\
      (ok = true <-> negb (v =? 0)%Z = true).
Proof.
  apply (check_clamped sample_grid 0.1 37.77 (-122.42) true).
  - split; [reflexivity|]. repeat constructor.
  - simpl. lia.
  - simpl. lia.
Defined.

(** San Francisco at the resolution of [main]: row 522, column 575. *)
Example check_san_francisco :
  (do q <- float_truediv (float_of_Z 90 - 37.77)%float main_res; int_of_float q)
    = Ok 522%Z /\
  (do q <- float_truediv (-122.42 + float_of_Z 180)%float main_res; int_of_float q)
    = Ok 575%Z.
Proof. split; vm_compute; reflexivity. Qed.

(** C3, as the specification has it, fails: on a grid with no row the
    clamped row index is 0, and reading it raises [IndexError]. *)
Lemma check_empty_grid :
  wf_ndarray2 (np_zeros2 0 3600) /\
  check (np_zeros2 0 3600) 0.1 37.77 (-122.42) true = Raise IndexError.
Proof.
  split; [|vm_compute; reflexivity].
  split; [reflexivity|constructor].
Qed.

(** The index computations themselves can fail: [int] raises on a NaN
    and on an infinity, and the division on a zero resolution. *)
Example check_not_a_number :
  check sample_grid 0.1 nan (-122.42) true = Raise ValueError /\
  check sample_grid 0.1 37.77 infinity true = Raise OverflowError /\
  check sample_grid 0 37.77 (-122.42) true = Raise ZeroDivisionError.
Proof. repeat split; vm_compute; reflexivity. Qed.

(** ** The parameters *)

(** C4, as the code has it: [main] runs the rasterizer and the validator
    with rows=1800, cols=3600 and res=0.1, passed explicitly, and the grid
    it encodes has 1800 rows and 3600 columns; the default arguments of
    [generate_grid] are rows=720, cols=1440 and res=0.25, and the default
    of [validate_grid] is res=0.25. Both sets cover the sphere:
    [rows * res == 180] and [cols * res == 360] in floating point. *)
Theorem grid_parameters :
  (forall (E : GeometryEngine) (world : dataset),
     main world =
       (do grid <- generate_grid world 1800 3600 0.1;
        do _ <- validate_grid grid 0.1;
        do rle <- rle_encode (bitpack grid);
        Ok (String.append "const LAND_BITMAP_RLE_B64 = "
             (String.append (String (ascii_of_nat 34) EmptyString)
               (String.append (Base64.b64encode rle)
                 (String.append (String (ascii_of_nat 34) EmptyString) ";"))))) /\
     exists grid,
       generate_grid world 1800 3600 0.1 = Ok grid /\
       shape0 grid = 1800 /\ shape1 grid = 3600) /\
  (main_rows = 1800 /\ main_cols = 3600 /\ main_res = 0.1%float) /\
  ((float_of_nat main_rows * main_res =? float_of_Z 180)%float = true /\
   (float_of_nat main_cols * main_res =? float_of_Z 360)%float = true) /\
  (generate_grid_default_rows = 720 /\ generate_grid_default_cols = 1440 /\
   generate_grid_default_res = 0.25%float /\
   validate_grid_default_res = 0.25%float) /\
  ((float_of_nat generate_grid_default_rows * generate_grid_default_res
      =? float_of_Z 180)%float = true /\
   (float_of_nat generate_grid_default_cols * generate_grid_default_res
      =? float_of_Z 360)%float = true) /\
  (forall (E : GeometryEngine) (world : dataset),
     generate_grid_call world None None None =
     generate_grid world 720 1440 0.25) /\
  (forall grid, validate_grid_call grid None = validate_grid grid 0.25).
Proof.
  split.
  { intros E world. split; [reflexivity|].
    destruct (generate_grid_painted world 1800 3600 0.1%float)
      as (grid & Hgrid & _ & Hrows & Hcols & _); [left; lia|].
    by exists grid. }
  split; [done|]. split; [split; vm_compute; reflexivity|].
  split; [done|]. split; [split; vm_compute; reflexivity|].
  split; done.
Qed.

(** C4, as the specification has it, fails: the default arguments of the
    two operations are not rows=1800, cols=3600, res=0.1. *)
Lemma default_parameters_differ :
  generate_grid_default_rows <> 1800 /\
  generate_grid_default_cols <> 3600 /\
  (generate_grid_default_res =? 0.1)%float = false /\
  (validate_grid_default_res =? 0.1)%float = false.
Proof.
  split; [unfold generate_grid_default_rows; lia|].
  split; [unfold generate_grid_default_cols; lia|].
  split; reflexivity.
Qed.

(** * Further properties *)

(** ** The rasterizer *)

Lemma painted_boolean g rows cols land :
  painted g rows cols land -> is_boolean g.
Proof.
  intros ([Hlen Hlines] & Hrows & Hcols & Hcells).
  apply Forall_lookup_2. intros r line Hline.
  apply Forall_lookup_2. intros c v Hv.
  pose proof (Forall_lookup_1 _ _ _ _ Hlines Hline) as Hl. simpl in Hl.
  assert (r < rows) as Hr by (apply lookup_lt_Some in Hline; lia).
  assert (c < cols) as Hc by (apply lookup_lt_Some in Hv; lia).
  specialize (Hcells r c Hr Hc). unfold cell in Hcells.
  rewrite Hline in Hcells. simpl in Hcells.
  assert (v = Z.b2z (land r c)) as -> by congruence.
  destruct (land r c); [by right|by left].
Qed.

(** X1: [generate_grid] raises nothing but the [ZeroDivisionError] of
    its progress report, and that only on a grid with no column and 180
    rows or more. For every other size, and every dataset and resolution,
    it returns a grid of [rows] rows and [cols] columns whose cells are
    all 0 or 1. *)
Theorem generate_grid_returns_grid `{GeometryEngine} (world : dataset)
    (rows cols : nat) (res : float) :
  (cols = 0 /\ 180 <= rows ->
   generate_grid world rows cols res = Raise ZeroDivisionError) /\
  (cols <> 0 \/ rows < 180 ->
   exists grid, generate_grid world rows cols res = Ok grid /\
     shape0 grid = rows /\ shape1 grid = cols /\
     wf_ndarray2 grid /\ is_boolean grid).
Proof.
  split.
  - intros [-> Hrows]. by apply generate_grid_zero_division.
  - intros Hsize.
    destruct (generate_grid_painted world rows cols res Hsize)
      as (grid & Hgrid & Hpainted).
    exists grid. split; [done|].
    pose proof (painted_boolean _ _ _ _ Hpainted) as Hbool.
    destruct Hpainted as (Hwf & Hrows & Hcols & _). done.
Qed.

(** X2: the rasterizer is monotone in the land: when every point the
    merged geometry of one dataset contains is contained in the merged
    geometry of another, every land cell of the first grid is a land cell
    of the second (on a grid with columns, or with fewer than 180 rows,
    where [generate_grid] returns). *)
Theorem generate_grid_monotone `{GeometryEngine} (world1 world2 : dataset)
    (rows cols : nat) (res : float)
    (Hsize : cols <> 0 \/ rows < 180)
    (Hsub : forall p, contains (unary_union (omap id world1)) p = true ->
                      contains (unary_union (omap id world2)) p = true) :
  exists grid1 grid2,
    generate_grid world1 rows cols res = Ok grid1 /\
    generate_grid world2 rows cols res = Ok grid2 /\
    forall row col, cell grid1 row col = Some 1%Z -> cell grid2 row col = Some 1%Z.
Proof.
  destruct (generate_grid_painted world1 rows cols res Hsize)
    as (grid1 & Hgrid1 & (Hwf1 & Hrows1 & Hcols1 & Hcells1)).
  destruct (generate_grid_painted world2 rows cols res Hsize)
    as (grid2 & Hgrid2 & (Hwf2 & Hrows2 & Hcols2 & Hcells2)).
  exists grid1, grid2. split; [done|]. split; [done|].
  intros row col Hland.
  assert (row < rows /\ col < cols) as [Hrow Hcol].
  { unfold cell in Hland. destruct Hwf1 as [Hlen Hlines].
    destruct (cells grid1 !! row) as [line|] eqn:Hline; [|done].
    simpl in Hland.
    pose proof (Forall_lookup_1 _ _ _ _ Hlines Hline) as Hl. simpl in Hl.
    apply lookup_lt_Some in Hline, Hland. lia. }
  rewrite Hcells1 in Hland by done. rewrite Hcells2 by done.
  destruct (cell_is_land (unary_union (omap id world1)) res row col) eqn:H1;
    [|done].
  apply cell_is_land_samples in H1 as (p & Hp & Hin).
  assert (cell_is_land (unary_union (omap id world2)) res row col = true) as ->;
    [|done].
  apply cell_is_land_samples. exists p. split; [done|]. by apply Hsub.
Qed.

(** Two islets against one of them: the first grid has land in cell
    (1, 1), and so has the second. *)
Lemma generate_grid_monotone_witness :
  exists grid1 grid2,
    @generate_grid point_sets [Some (islet 0.5 1 1)] 2 2 0.5 = Ok grid1 /\
    @generate_grid point_sets [Some (islet 0.5 0 0); None; Some (islet 0.5 1 1)]
      2 2 0.5 = Ok grid2 /\
    forall row col, cell grid1 row col = Some 1%Z -> cell grid2 row col = Some 1%Z.
Proof.
  apply (@generate_grid_monotone point_sets [Some (islet 0.5 1 1)]
           [Some (islet 0.5 0 0); None; Some (islet 0.5 1 1)] 2 2 0.5%float).
  - left. lia.
  - intros p Hp. simpl in Hp |- *.
    rewrite orb_false_r in Hp |- *. rewrite Hp. apply orb_true_r.
Defined.

Example generate_grid_monotone_grids :
  @generate_grid point_sets [Some (islet 0.5 1 1)] 2 2 0.5 =
    Ok (Ndarray2 2 2 [[0; 0]; [0; 1]]%Z) /\
  @generate_grid point_sets [Some (islet 0.5 0 0); None; Some (islet 0.5 1 1)]
    2 2 0.5 = Ok (Ndarray2 2 2 [[1; 0]; [0; 1]]%Z).
Proof. split; vm_compute; reflexivity. Qed.

(** *** The containment tests *)

Lemma through_first_prefix {A : Type} (f : A -> bool) (l : list A) :
  exists rest, l = through_first f l ++ rest.
Proof.
  induction l as [|a l [rest IH]]; simpl.
  - by exists [].
  - destruct (f a).
    + by exists l.
    + exists rest. simpl. by f_equal.
Qed.

(** A hit is the last element. *)
Lemma through_first_hit_last {A : Type} (f : A -> bool) (l : list A) i a :
  through_first f l !! i = Some a -> f a = true ->
  S i = length (through_first f l).
Proof.
  revert i. induction l as [|b l IH]; intros i; simpl; [done|].
  destruct (f b) eqn:Hb.
  - destruct i as [|i]; [done|]. simpl. by rewrite lookup_nil.
  - destruct i as [|i]; simpl.
    + intros [= ->] Ha. congruence.
    + intros Hi Ha. f_equal. by apply IH.
Qed.

(** What is left out comes after a hit. *)
Lemma through_first_stop {A : Type} (f : A -> bool) (l : list A) :
  exists rest, l = through_first f l ++ rest /\
    (rest <> [] -> exists a, last (through_first f l) = Some a /\ f a = true).
Proof.
  induction l as [|b l (rest & Hrest & Hlast)]; simpl.
  - exists []. done.
  - destruct (f b) eqn:Hb.
    + exists l. split; [done|]. intros _. by exists b.
    + exists rest. split; [simpl; by f_equal|].
      intros Hne. destruct (Hlast Hne) as (a & Ha & Hfa).
      exists a. split; [|done]. rewrite last_cons, Ha. done.
Qed.

Section probes_proofs.
Context `{GeometryEngine}.

Lemma probe_cell_through_first prepared res row col :
  probe_cell prepared res row col =
  (cell_is_land prepared res row col,
   through_first (contains prepared) (sample_points res row col)).
Proof.
  unfold probe_cell, cell_is_land, sample_points, offsets. simpl.
  repeat match goal with
         | |- context [contains prepared ?p] =>
             destruct (contains prepared p); simpl; try reflexivity
         end.
Qed.

(** X3: the early exit changes which points are tested, not the answer.
    [is_land] is true exactly when one of the nine sample points is on
    land, as if all nine were tested. The points handed to [contains] are
    the first sample points of the cell, in order; a point found on land
    is the last one tested, so nothing is tested after a hit; and testing
    stops before the ninth point only on a hit. *)
Theorem probe_cell_short_circuit prepared res row col :
  cell_is_land prepared res row col = fst (probe_cell prepared res row col) /\
  fst (probe_cell prepared res row col) =
    existsb (contains prepared) (sample_points res row col) /\
  length (snd (probe_cell prepared res row col)) <= 9 /\
  (forall i p,
     snd (probe_cell prepared res row col) !! i = Some p ->
     contains prepared p = true ->
     S i = length (snd (probe_cell prepared res row col))) /\
  (exists rest,
     sample_points res row col = snd (probe_cell prepared res row col) ++ rest /\
     (rest <> [] ->
      exists p, last (snd (probe_cell prepared res row col)) = Some p /\
                contains prepared p = true)).
Proof.
  rewrite probe_cell_through_first. cbn [fst snd].
  assert (Hany : cell_is_land prepared res row col =
                 existsb (contains prepared) (sample_points res row col)).
  { destruct (cell_is_land prepared res row col) eqn:Hland.
    - symmetry. apply existsb_exists.
      apply cell_is_land_samples in Hland as (p & Hp & Hin).
      exists p. split; [by apply list_elem_of_In|done].
    - symmetry. apply not_true_is_false.
      intros (p & Hp & Hin)%existsb_exists.
      assert (cell_is_land prepared res row col = true); [|congruence].
      apply cell_is_land_samples. exists p.
      split; [by apply list_elem_of_In|done]. }
  split; [done|]. split; [done|]. split; [|split].
  - destruct (through_first_prefix (contains prepared) (sample_points res row col))
      as [rest Hrest].
    assert (length (sample_points res row col) = 9) as Hnine by reflexivity.
    rewrite Hrest, length_app in Hnine. lia.
  - intros i p. apply through_first_hit_last.
  - apply through_first_stop.
Qed.

(** Land everywhere: one test, and the cell is land. Land nowhere: nine
    tests, and the cell is water. *)
Example probe_cell_all_land :
  @probe_cell point_sets (fun _ => true) 0.5 1 1 =
    (true, [Point (sample_lng 0.5 1 0.17) (sample_lat 0.5 1 0.17)]) /\
  @probe_cell point_sets (fun _ => false) 0.5 1 1 =
    (false, sample_points 0.5 1 1).
Proof. split; reflexivity. Qed.
End probes_proofs.

(** ** The run-length encoder *)

(** *** Input that is not a byte sequence *)

Lemma bytearray_append_bad out v :
  ~ (0 <= v < 256)%Z -> bytearray_append out v = Raise ValueError.
Proof.
  intros Hv. unfold bytearray_append, in_byte_range.
  destruct (Z.leb_spec 0 v), (Z.ltb_spec v 256); simpl; (done || lia).
Qed.

(** The first element out of range. *)
Lemma not_bytes_first (data : list Z) :
  ~ is_bytes data ->
  exists k bad, data !! k = Some bad /\ ~ (0 <= bad < 256)%Z /\
                is_bytes (take k data).
Proof.
  induction data as [|a data IH]; intros Hnot.
  - destruct Hnot. constructor.
  - destruct (decide (0 <= a < 256)%Z) as [Ha|Ha].
    + destruct IH as (k & bad & Hk & Hbad & Htake).
      { intros Hdata. apply Hnot. by constructor. }
      exists (S k), bad. split; [done|]. split; [done|]. by constructor.
    + exists 0, a. split; [done|]. split; [done|]. constructor.
Qed.

(** The loop reaches the first element out of range at the start of a
    run, and fails on it. *)
Lemma rle_loop_bad (data : list Z) k bad :
  data !! k = Some bad -> ~ (0 <= bad < 256)%Z -> is_bytes (take k data) ->
  forall n i out, k - i = n -> i <= k ->
    rle_loop data i out = Raise ValueError.
Proof.
  intros Hk Hbad Hgood n. induction n as [n IH] using lt_wf_ind.
  intros i out Hn Hi. rewrite rle_loop_step.
  pose proof (lookup_lt_Some _ _ _ Hk) as Hklen.
  rewrite (proj2 (Nat.ltb_lt _ _)) by lia.
  destruct (decide (i = k)) as [->|Hne].
  - rewrite Hk. cbv zeta. by rewrite bytearray_append_bad.
  - destruct (lookup_lt_is_Some_2 data i) as [value Hvalue]; [lia|].
    rewrite Hvalue. cbv zeta.
    assert (0 <= value < 256)%Z as Hrange.
    { apply (Forall_lookup_1 _ _ i _ Hgood).
      rewrite lookup_take_lt by lia. exact Hvalue. }
    pose proof (scan_run_spec data i value 1) as (Hc & Hall & _); [lia|].
    set (count := scan_run data i value 1) in *.
    assert (i + count <= k) as Hnext.
    { destruct (decide (i + count <= k)) as [|Hover]; [done|]. exfalso.
      assert (data !! (i + (k - i)) = Some value) as Hsame
        by (apply Hall; lia).
      replace (i + (k - i)) with k in Hsame by lia.
      rewrite Hk in Hsame. injection Hsame as ->. done. }
    rewrite bytearray_append_ok by done. simpl.
    rewrite bytearray_append_ok by lia. simpl.
    apply (IH (k - (i + count))); lia.
Qed.

(** X4: [rle_encode] succeeds exactly on byte sequences. On a sequence
    of integers of [range(256)] it returns a byte sequence; if some
    element is outside that range, [bytearray.append] refuses it and
    [rle_encode] raises [ValueError]. *)
Theorem rle_encode_value_error (data : list Z) :
  (is_bytes data -> exists enc, rle_encode data = Ok enc /\ is_bytes enc) /\
  (~ is_bytes data -> rle_encode data = Raise ValueError).
Proof.
  split.
  - intros Hdata. destruct (rle_encode_spec data Hdata) as (enc & Henc & Hpairs).
    exists enc. split; [done|]. by eapply run_pairs_bytes.
  - intros (k & bad & Hk & Hbad & Hgood)%not_bytes_first.
    apply (rle_loop_bad data k bad Hk Hbad Hgood (k - 0) 0 []); lia.
Qed.

(** *** The size of the output *)

Lemma run_pairs_size data enc :
  run_pairs data enc ->
  length enc <= 2 * length data /\ 2 * length data <= 255 * length enc.
Proof.
  induction 1 as [|v c rest enc Hc Hmax Hrest IH]; simpl; [lia|].
  rewrite length_app, length_replicate. lia.
Qed.

(** X5: the output of [rle_encode] is at most twice as long as its
    input (no two neighbours equal) and at least 2/255 of it (runs of
    255): [len(out) <= 2 * len(B)] and [2 * len(B) <= 255 * len(out)]. *)
Theorem rle_encode_size (B : list Z) (HB : is_bytes B) :
  exists enc, rle_encode B = Ok enc /\
    length enc <= 2 * length B /\ 2 * length B <= 255 * length enc.
Proof.
  destruct (rle_encode_spec B HB) as (enc & Henc & Hpairs).
  exists enc. split; [done|]. by apply run_pairs_size.
Qed.

Lemma rle_encode_size_witness :
  exists enc, rle_encode [4; 4; 4; 9]%Z = Ok enc /\
    length enc <= 2 * length [4; 4; 4; 9]%Z /\
    2 * length [4; 4; 4; 9]%Z <= 255 * length enc.
Proof.
  apply (rle_encode_size [4; 4; 4; 9]%Z).
  repeat constructor; lia.
Defined.

(** *** Encoding in pieces *)

Lemma run_pairs_app a b ea eb :
  run_pairs a ea -> run_pairs b eb ->
  (forall v, last a = Some v -> head b <> Some v) ->
  run_pairs (a ++ b) (ea ++ eb).
Proof.
  intros Ha Hb. induction Ha as [|v c rest enc Hc Hmax Hrest IH]; intros Hbreak.
  - done.
  - rewrite <- app_assoc. simpl. constructor; [done| |].
    + destruct Hmax as [?|Hhead]; [by left|right].
      destruct rest as [|x rest]; [|done].
      simpl. apply Hbreak. rewrite app_nil_r.
      destruct c as [|c]; [lia|].
      by rewrite replicate_S_end, last_snoc.
    + apply IH. intros w Hw. apply Hbreak.
      rewrite last_app, Hw. done.
Qed.

(** X6: encoding composes at a run break: when the last byte of [a]
    differs from the first byte of [b], the encoding of [a ++ b] is the
    encoding of [a] followed by the encoding of [b]. *)
Theorem rle_encode_app (a b : list Z) (Ha : is_bytes a) (Hb : is_bytes b)
    (Hbreak : forall v, last a = Some v -> head b <> Some v) :
  exists ea eb, rle_encode a = Ok ea /\ rle_encode b = Ok eb /\
                rle_encode (a ++ b) = Ok (ea ++ eb).
Proof.
  destruct (rle_encode_spec a Ha) as (ea & Hea & Hpa).
  destruct (rle_encode_spec b Hb) as (eb & Heb & Hpb).
  destruct (rle_encode_spec (a ++ b)) as (eab & Heab & Hpab);
    [by apply Forall_app|].
  exists ea, eb. split; [done|]. split; [done|].
  rewrite Heab. f_equal.
  apply (run_pairs_inj _ _ _ Hpab). by apply run_pairs_app.
Qed.

Lemma rle_encode_app_witness :
  exists ea eb, rle_encode [3; 3]%Z = Ok ea /\ rle_encode [8; 8; 8]%Z = Ok eb /\
                rle_encode ([3; 3] ++ [8; 8; 8])%Z = Ok (ea ++ eb).
Proof.
  apply (rle_encode_app [3; 3]%Z [8; 8; 8]%Z).
  - repeat constructor; lia.
  - repeat constructor; lia.
  - intros v Hlast Hhead. simpl in Hlast, Hhead. congruence.
Defined.

(** *** One long run *)

Lemma run_pairs_replicate v :
  forall n,
    run_pairs (replicate n v)
      (concat (replicate (n / 255) [v; 255%Z]) ++
       (if n mod 255 =? 0 then [] else [v; Z.of_nat (n mod 255)])).
Proof.
  intros n. induction n as [n IH] using lt_wf_ind.
  destruct (decide (n < 255)) as [Hsmall|Hbig].
  - rewrite (Nat.div_small n 255), (Nat.mod_small n 255) by done. simpl.
    destruct (Nat.eqb_spec n 0) as [->|Hn]; [constructor|].
    rewrite <- (app_nil_r (replicate n v)).
    constructor; [lia|by right|constructor].
  - replace n with (255 + (n - 255)) at 1 by lia.
    rewrite replicate_add.
    replace (n / 255) with (S ((n - 255) / 255)) by div_lia.
    replace (n mod 255) with ((n - 255) mod 255) by div_lia.
    rewrite replicate_S. cbn [concat app].
    apply (run_pairs_cons v 255); [lia|by left|].
    apply IH. lia.
Qed.

(** X7: a run of [n] copies of one byte [v] encodes as [n div 255]
    pairs [(v, 255)] followed, when 255 does not divide [n], by the pair
    [(v, n mod 255)]. *)
Theorem rle_encode_replicate (n : nat) (v : Z) (Hv : (0 <= v < 256)%Z) :
  rle_encode (replicate n v) =
  Ok (concat (replicate (n / 255) [v; 255%Z]) ++
      (if n mod 255 =? 0 then [] else [v; Z.of_nat (n mod 255)])).
Proof.
  destruct (rle_encode_spec (replicate n v)) as (enc & Henc & Hpairs);
    [by apply is_bytes_replicate|].
  rewrite Henc. f_equal.
  apply (run_pairs_inj _ _ _ Hpairs), run_pairs_replicate.
Qed.

Lemma rle_encode_replicate_witness :
  rle_encode (replicate 600 7%Z) =
  Ok (concat (replicate (600 / 255) [7; 255]%Z) ++
      (if 600 mod 255 =? 0 then [] else [7%Z; Z.of_nat (600 mod 255)])).
Proof.
  apply (rle_encode_replicate 600 7%Z). lia.
Defined.

(** *** No shorter encoding *)

Lemma app_eq_app_le {A : Type} (l1 l2 l3 l4 : list A) :
  l1 ++ l2 = l3 ++ l4 -> length l1 <= length l3 ->
  exists m, l3 = l1 ++ m /\ l2 = m ++ l4.
Proof.
  intros Heq Hlen. exists (drop (length l1) l3).
  assert (take (length l1) l3 = l1) as Htake.
  { rewrite <- (take_app_le l3 l4) by done.
    rewrite <- Heq. apply take_app_length. }
  split.
  - rewrite <- Htake at 1. by rewrite take_drop.
  - rewrite <- (drop_app_length l1 l2), Heq.
    rewrite drop_app_le by done. done.
Qed.

Lemma rle_decode_cons v c rest :
  rle_decode (v :: Z.of_nat c :: rest) = replicate c v ++ rle_decode rest.
Proof. simpl. by rewrite Nat2Z.id. Qed.

(** The pairs of [rle_encode] are no more than the pairs of any encoding
    of a sequence that ends with the same bytes. *)
Lemma run_pairs_shortest data enc :
  run_pairs data enc ->
  forall enc' front, pair_list enc' -> rle_decode enc' = front ++ data ->
    length enc <= length enc'.
Proof.
  induction 1 as [|v c rest enc Hc Hmax Hrest IH]; [simpl; lia|].
  intros enc' front Hvalid. revert front.
  induction Hvalid as [|v' c' tl Hc' Htl IHtl]; intros front Hdec.
  - apply (f_equal length) in Hdec.
    rewrite !length_app, length_replicate in Hdec. simpl in Hdec. lia.
  - rewrite rle_decode_cons in Hdec.
    destruct (decide (c' <= length front)) as [Hshort|Hlong].
    + (* the first pair lies before the run *)
      destruct (app_eq_app_le (replicate c' v') (rle_decode tl) front
                  (replicate c v ++ rest)) as (m & _ & Htl');
        [done|by rewrite length_replicate|].
      specialize (IHtl m Htl'). simpl in *. lia.
    + (* the first pair reaches into the run *)
      destruct (app_eq_app_le front (replicate c v ++ rest)
                  (replicate c' v') (rle_decode tl)) as (m & Hm & Hrun);
        [done|rewrite length_replicate; lia|].
      assert (m = replicate (c' - length front) v') as ->.
      { apply (f_equal (drop (length front))) in Hm.
        by rewrite drop_replicate, drop_app_length in Hm. }
      remember (c' - length front) as k eqn:Hk.
      assert (v' = v) as ->.
      { destruct k as [|k0]; [lia|]. destruct c as [|c0]; [lia|].
        simpl in Hrun. congruence. }
      destruct (decide (k <= c)) as [Hkc|Hkc].
      * replace c with (k + (c - k)) in Hrun by lia.
        rewrite replicate_add, <- app_assoc in Hrun.
        apply app_inv_head in Hrun.
        specialize (IH tl (replicate (c - k) v) Htl (eq_sym Hrun)).
        simpl. lia.
      * exfalso. replace k with (c + (k - c)) in Hrun by lia.
        rewrite replicate_add, <- app_assoc in Hrun.
        apply app_inv_head in Hrun. subst rest.
        destruct Hmax as [->|Hhead]; [lia|].
        destruct (k - c) eqn:Hkc'; [lia|]. by apply Hhead.
Qed.

(** X8: no encoding in the same format is shorter: any sequence of
    (value, count) pairs with counts between 1 and 255 that decodes to
    [B] is at least as long as the output of [rle_encode] on [B]. *)
Theorem rle_encode_shortest (B other : list Z) (HB : is_bytes B)
    (Hvalid : pair_list other) (Hdecode : rle_decode other = B) :
  exists enc, rle_encode B = Ok enc /\ length enc <= length other.
Proof.
  destruct (rle_encode_spec B HB) as (enc & Henc & Hpairs).
  exists enc. split; [done|].
  by apply (run_pairs_shortest B enc Hpairs other []).
Qed.

Lemma rle_encode_shortest_witness :
  exists enc, rle_encode [5; 5; 5]%Z = Ok enc /\
              length enc <= length [5; 1; 5; 2]%Z.
Proof.
  apply (rle_encode_shortest [5; 5; 5]%Z [5; 1; 5; 2]%Z).
  - repeat constructor; lia.
  - apply (pair_list_cons 5 1); [lia|].
    apply (pair_list_cons 5 2); [lia|]. constructor.
  - reflexivity.
Defined.

(** ** The bit-packer *)

Lemma bitpack_lookup g j :
  j < length (bitpack g) ->
  bitpack g !! j =
  Some (gathered (set_prefix (np_zeros ((length (flatten g) + 7) / 8 * 8)) (flatten g))
                 j 0 (seq 0 8)).
Proof.
  rewrite bitpack_length. intros Hj. unfold bitpack. cbv zeta.
  apply passes_lookup.
  - intros bit Hbit%elem_of_seq. apply padded_strided_length. lia.
  - apply lookup_replicate_2. div_lia.
Qed.

Lemma testbit_uint8_shl_any (x s t : Z) :
  (0 <= t < 8)%Z ->
  Z.testbit (uint8_shl x s) t = Z.testbit x (t - s).
Proof.
  intros Ht. unfold uint8_shl.
  rewrite Z.land_spec, Z.shiftl_spec by lia.
  change 255%Z with (Z.ones 8). by rewrite Z.ones_spec_low, andb_true_r by lia.
Qed.

Lemma gathered_testbit_any (padded : list Z) j acc bits t :
  (0 <= t < 8)%Z ->
  Z.testbit (gathered padded j acc bits) t =
  Z.testbit acc t ||
  existsb (fun bit => Z.testbit (nth (bit + j * 8) padded 0%Z)
                                (t - (7 - Z.of_nat bit))) bits.
Proof.
  intros Ht. revert acc. induction bits as [|bit bits IH]; intros acc; simpl.
  - by rewrite orb_false_r.
  - rewrite IH, Z.lor_spec, testbit_uint8_shl_any by done.
    by rewrite orb_assoc.
Qed.

(** X9: [bitpack] on cells of any value. It returns
    [(cells + 7) // 8] bytes, none for an empty grid, and it does not
    reduce a cell to one bit: bit [t] of byte [j] is the OR, over the
    eight cells [8j + b] of the byte, of bit [t - (7 - b)] of the cell.
    A cell other than 0 or 1 spills into the bits of the cells before
    it. *)
Theorem bitpack_any_cells (g : ndarray2) :
  length (bitpack g) = (length (flatten g) + 7) / 8 /\
  is_bytes (bitpack g) /\
  (flatten g = [] -> bitpack g = []) /\
  (forall j byte t, bitpack g !! j = Some byte -> (0 <= t < 8)%Z ->
     Z.testbit byte t =
     existsb (fun b => Z.testbit (nth (8 * j + b) (flatten g) 0%Z)
                                 (t - (7 - Z.of_nat b))) (seq 0 8)).
Proof.
  split; [apply bitpack_length|]. split; [|split].
  - apply Forall_lookup_2. intros j byte Hj.
    rewrite bitpack_lookup in Hj by (by eapply lookup_lt_Some).
    apply (inj Some) in Hj. subst byte. apply gathered_range. lia.
  - intros Hflat. apply length_zero_iff_nil.
    rewrite bitpack_length, Hflat. reflexivity.
  - intros j byte t Hj Ht.
    rewrite bitpack_lookup in Hj by (by eapply lookup_lt_Some).
    apply (inj Some) in Hj. subst byte.
    rewrite gathered_testbit_any, Z.testbit_0_l, orb_false_l by done.
    induction (seq 0 8) as [|b bs IH]; [done|].
    cbn [existsb]. rewrite IH, set_prefix_zeros_nth.
    by replace (b + j * 8) with (8 * j + b) by lia.
Qed.

(** A cell holding 2 sets the bit of the cell before it, not its own. *)
Example bitpack_cell_two :
  bitpack (Ndarray2 1 8 [[0; 2; 0; 0; 0; 0; 0; 0]]%Z) = [128]%Z.
Proof. reflexivity. Qed.

(** X10: on a boolean grid, byte [j] of [bitpack] is the binary number
    whose digits are the eight cells [8j .. 8j + 7], first cell first
    (cells past the end of the grid counting as 0). *)
Theorem bitpack_byte_value (g : ndarray2) (j : nat)
    (Hbool : is_boolean g) (Hj : j < length (bitpack g)) :
  bitpack g !! j =
  Some (128 * nth (8 * j) (flatten g) 0 + 64 * nth (8 * j + 1) (flatten g) 0 +
        32 * nth (8 * j + 2) (flatten g) 0 + 16 * nth (8 * j + 3) (flatten g) 0 +
        8 * nth (8 * j + 4) (flatten g) 0 + 4 * nth (8 * j + 5) (flatten g) 0 +
        2 * nth (8 * j + 6) (flatten g) 0 + nth (8 * j + 7) (flatten g) 0)%Z.
Proof.
  rewrite bitpack_lookup by done. f_equal.
  unfold gathered. cbn [seq foldl].
  rewrite !set_prefix_zeros_nth.
  replace (0 + j * 8) with (8 * j) by lia.
  replace (1 + j * 8) with (8 * j + 1) by lia.
  replace (2 + j * 8) with (8 * j + 2) by lia.
  replace (3 + j * 8) with (8 * j + 3) by lia.
  replace (4 + j * 8) with (8 * j + 4) by lia.
  replace (5 + j * 8) with (8 * j + 5) by lia.
  replace (6 + j * 8) with (8 * j + 6) by lia.
  replace (7 + j * 8) with (8 * j + 7) by lia.
  pose proof (flatten_boolean g Hbool) as Hflat.
  destruct (nth_boolean (flatten g) (8 * j) Hflat) as [-> | ->],
           (nth_boolean (flatten g) (8 * j + 1) Hflat) as [-> | ->],
           (nth_boolean (flatten g) (8 * j + 2) Hflat) as [-> | ->],
           (nth_boolean (flatten g) (8 * j + 3) Hflat) as [-> | ->],
           (nth_boolean (flatten g) (8 * j + 4) Hflat) as [-> | ->],
           (nth_boolean (flatten g) (8 * j + 5) Hflat) as [-> | ->],
           (nth_boolean (flatten g) (8 * j + 6) Hflat) as [-> | ->],
           (nth_boolean (flatten g) (8 * j + 7) Hflat) as [-> | ->];
    reflexivity.
Qed.

Lemma bitpack_byte_value_witness :
  bitpack sample_grid !! 0 =
  Some (128 * nth (8 * 0) (flatten sample_grid) 0 +
        64 * nth (8 * 0 + 1) (flatten sample_grid) 0 +
        32 * nth (8 * 0 + 2) (flatten sample_grid) 0 +
        16 * nth (8 * 0 + 3) (flatten sample_grid) 0 +
        8 * nth (8 * 0 + 4) (flatten sample_grid) 0 +
        4 * nth (8 * 0 + 5) (flatten sample_grid) 0 +
        2 * nth (8 * 0 + 6) (flatten sample_grid) 0 +
        nth (8 * 0 + 7) (flatten sample_grid) 0)%Z.
Proof.
  apply (bitpack_byte_value sample_grid 0).
  - repeat first [lia | constructor].
  - vm_compute. lia.
Defined.

(** *** Nothing is lost *)

Lemma unpack_bitpack_flat g :
  is_boolean g -> take (length (flatten g)) (unpack (bitpack g)) = flatten g.
Proof.
  intros Hbool. apply list_eq. intros i.
  destruct (decide (i < length (flatten g))) as [Hi|Hi].
  - rewrite lookup_take_lt by done.
    destruct (lookup_lt_is_Some_2 (flatten g) i Hi) as [v Hv].
    rewrite Hv, unpack_lookup.
    destruct (bitpack_testbit g i Hbool) as (byte & Hbyte & _ & Hbit).
    { rewrite bitpack_length. div_lia. }
    rewrite Hbyte. cbn [fmap option_fmap option_map].
    rewrite Hbit, (nth_lookup_Some _ _ _ _ Hv).
    pose proof (Forall_lookup_1 _ _ _ _ (flatten_boolean g Hbool) Hv) as [->| ->];
      done.
  - rewrite lookup_take_ge by lia.
    symmetry. apply lookup_ge_None_2. lia.
Qed.

Lemma concat_uniform_inj (ls ls' : list (list Z)) cols :
  Forall (fun row => length row = cols) ls ->
  Forall (fun row => length row = cols) ls' ->
  length ls = length ls' ->
  concat ls = concat ls' -> ls = ls'.
Proof.
  intros Hls. revert ls'.
  induction Hls as [|row ls Hrow _ IH]; intros ls' Hls' Hlen Heq.
  - destruct ls'; [done|simpl in Hlen; lia].
  - destruct Hls' as [|row' ls' Hrow' Hls']; [simpl in Hlen; lia|].
    simpl in Heq, Hlen.
    apply app_inj_1 in Heq as [-> Heq]; [|congruence].
    f_equal. apply IH; [done|lia|done].
Qed.

(** X11: [bitpack] loses nothing of a boolean grid: two boolean grids of
    the same shape with the same packed bytes are the same grid. *)
Theorem bitpack_inj (g g' : ndarray2)
    (Hwf : wf_ndarray2 g) (Hwf' : wf_ndarray2 g')
    (Hbool : is_boolean g) (Hbool' : is_boolean g')
    (Hrows : shape0 g = shape0 g') (Hcols : shape1 g = shape1 g')
    (Hpacked : bitpack g = bitpack g') :
  g = g'.
Proof.
  assert (flatten g = flatten g') as Hflat.
  { rewrite <- (unpack_bitpack_flat g Hbool), <- (unpack_bitpack_flat g' Hbool').
    rewrite !flatten_length by done. by rewrite Hpacked, Hrows, Hcols. }
  destruct Hwf as [Hlen Hlines], Hwf' as [Hlen' Hlines'].
  destruct g as [s0 s1 ls], g' as [s0' s1' ls']. simpl in *.
  rewrite <- Hcols in Hlines'.
  assert (ls = ls') as ->
    by (apply (concat_uniform_inj ls ls' s1); [done|done|lia|done]).
  congruence.
Qed.

Lemma bitpack_inj_witness : sample_grid = sample_grid.
Proof.
  apply (bitpack_inj sample_grid sample_grid).
  - split; [reflexivity|]. repeat constructor.
  - split; [reflexivity|]. repeat constructor.
  - repeat first [lia | constructor].
  - repeat first [lia | constructor].
  - reflexivity.
  - reflexivity.
  - reflexivity.
Defined.

(** ** The validator *)

(** [check] when the two indices fall inside the grid: nothing to clamp. *)
Lemma check_reads grid res lat lng expected_land (r c : nat) :
  wf_ndarray2 grid -> r < shape0 grid -> c < shape1 grid ->
  row_index res lat = Ok (Z.of_nat r) ->
  col_index res lng = Ok (Z.of_nat c) ->
  check grid res lat lng expected_land = Ok (reads grid r c expected_land).
Proof.
  intros Hwf Hr Hc Hrow Hcol. unfold check, row_index, col_index in *.
  destruct (float_truediv (float_of_Z 90 - lat) res) as [qr|]; [|done].
  cbn [bind] in Hrow |- *. rewrite Hrow. cbn [bind].
  destruct (float_truediv (lng + float_of_Z 180) res) as [qc|]; [|done].
  cbn [bind] in Hcol |- *. rewrite Hcol. cbn [bind].
  rewrite !Z.min_r, !Z.max_r by lia.
  destruct (getitem2_in_range grid (Z.of_nat r) (Z.of_nat c) Hwf)
    as (v & Hcell & ->); [lia|lia|].
  rewrite !Nat2Z.id in Hcell. unfold reads. rewrite Hcell. done.
Qed.

(** *** All the checks run *)

Lemma validate_loop_ok grid res pts acc b :
  for_in pts acc (fun '(lat, lng, expected_land) all_ok =>
    do ok <- check grid res lat lng expected_land; Ok (all_ok && ok)) = Ok b <->
  exists oks, Forall2 (fun p ok => check_point grid res p = Ok ok) pts oks /\
              b = acc && forallb id oks.
Proof.
  revert acc. induction pts as [|[[lat lng] e] pts IH]; intros acc; simpl.
  - split.
    + intros [= <-]. exists []. split; [constructor|]. by rewrite andb_true_r.
    + intros (oks & Hoks & ->). inversion Hoks. by rewrite andb_true_r.
  - destruct (check grid res lat lng e) as [ok|err] eqn:Hcheck; simpl.
    + rewrite IH. split.
      * intros (oks & Hoks & ->). exists (ok :: oks).
        split; [by constructor|]. simpl. by rewrite andb_assoc.
      * intros (oks & Hoks & ->).
        inversion Hoks as [|p ok' pts' oks' Hok Hoks']; subst.
        simpl in Hok. rewrite Hcheck in Hok. injection Hok as <-.
        exists oks'. split; [done|]. simpl. by rewrite andb_assoc.
    + split; [done|]. intros (oks & Hoks & _).
      inversion Hoks as [|p ok' pts' oks' Hok Hoks']; subst.
      simpl in Hok. congruence.
Qed.

Lemma validate_loop_raise grid res pts acc :
  Exists (fun p => exists err, check_point grid res p = Raise err) pts ->
  exists err,
    for_in pts acc (fun '(lat, lng, expected_land) all_ok =>
      do ok <- check grid res lat lng expected_land; Ok (all_ok && ok)) = Raise err.
Proof.
  intros Hraise. revert acc.
  induction Hraise as [[[lat lng] e] pts [err Herr]|[[lat lng] e] pts _ IH];
    intros acc; simpl.
  - simpl in Herr. rewrite Herr. by exists err.
  - destruct (check grid res lat lng e) as [ok|err]; simpl; [apply IH|by exists err].
Qed.

(** X12: [validate_grid] runs all nine checks, whatever the earlier ones
    answered. It returns true exactly when every check returns true; it
    returns a boolean only if no check raised; and an exception in any
    check, also one after a failed check, ends [validate_grid] with an
    exception. *)
Theorem validate_grid_all_checks (grid : ndarray2) (res : float) :
  (validate_grid grid res = Ok true <->
   forall p, p ∈ known_points -> check_point grid res p = Ok true) /\
  (forall b, validate_grid grid res = Ok b ->
     forall p, p ∈ known_points -> exists ok, check_point grid res p = Ok ok) /\
  (forall p err, p ∈ known_points -> check_point grid res p = Raise err ->
     exists err', validate_grid grid res = Raise err').
Proof.
  unfold validate_grid. split; [|split].
  - rewrite validate_loop_ok. split.
    + intros (oks & Hoks & Hall) p Hp. simpl in Hall. symmetry in Hall.
      apply list_elem_of_lookup in Hp as [i Hi].
      destruct (Forall2_lookup_l _ _ _ _ _ Hoks Hi) as (ok & Hok & Hcheck).
      rewrite Hcheck. f_equal.
      rewrite forallb_forall in Hall. apply (Hall ok).
      apply list_elem_of_In, list_elem_of_lookup. by exists i.
    + intros Hall. exists (replicate (length known_points) true).
      split; [|reflexivity].
      apply Forall2_same_length_lookup_2; [by rewrite length_replicate|].
      intros i p ok Hp Hok.
      apply lookup_replicate in Hok as [-> _].
      apply Hall, list_elem_of_lookup. by exists i.
  - intros b (oks & Hoks & _)%validate_loop_ok p Hp.
    apply list_elem_of_lookup in Hp as [i Hi].
    destruct (Forall2_lookup_l _ _ _ _ _ Hoks Hi) as (ok & _ & Hcheck).
    by exists ok.
  - intros p err Hp Hcheck. apply validate_loop_raise.
    apply Exists_exists. exists p. split; [done|by exists err].
Qed.

(** *** The cells the known points fall in *)

(** The rows and columns [check] computes for the known points at the
    resolution of [main], with the expected values. *)
Definition main_known_cells : list (nat * nat * bool) :=
  [ (522, 575, true); (700, 200, false); (543, 3196, true);
    (702, 245, true); (385, 1798, true); (900, 1500, false);
    (1238, 3312, true); (686, 221, true); (900, 1800, false) ].

Lemma known_points_main grid :
  wf_ndarray2 grid -> shape0 grid = main_rows -> shape1 grid = main_cols ->
  Forall2 (fun p ok => check_point grid main_res p = Ok ok) known_points
          ((fun '(r, c, e) => reads grid r c e) <$> main_known_cells).
Proof.
  intros Hwf Hrows Hcols. unfold known_points, main_known_cells.
  cbn [fmap list_fmap].
  repeat (apply List.Forall2_cons;
    [apply check_reads;
       [done
       |rewrite Hrows; unfold main_rows; lia
       |rewrite Hcols; unfold main_cols; lia
       |vm_compute; reflexivity
       |vm_compute; reflexivity]|]).
  apply List.Forall2_nil.
Qed.

(** X13: on a grid of the size of [main], 1800 by 3600, and at its
    resolution, [validate_grid] raises nothing and reads nine cells:
    (522, 575) for San Francisco, (700, 200) for the mid-Pacific,
    (543, 3196) for Tokyo, (702, 245) for Hawaii, (385, 1798) for London,
    (900, 1500) for the mid-Atlantic, (1238, 3312) for Sydney, (686, 221)
    for Honolulu and (900, 1800) for the Gulf of Guinea. It returns true
    exactly when each of them holds what is expected. *)
Theorem validate_grid_main_cells (grid : ndarray2) (Hwf : wf_ndarray2 grid)
    (Hrows : shape0 grid = main_rows) (Hcols : shape1 grid = main_cols) :
  validate_grid grid main_res =
  Ok (forallb (fun '(r, c, e) => reads grid r c e)
        [ (522, 575, true); (700, 200, false); (543, 3196, true);
          (702, 245, true); (385, 1798, true); (900, 1500, false);
          (1238, 3312, true); (686, 221, true); (900, 1800, false) ]).
Proof.
  unfold validate_grid. apply validate_loop_ok.
  eexists. split; [by apply known_points_main|]. reflexivity.
Qed.

Lemma np_zeros2_wf rows cols : wf_ndarray2 (np_zeros2 rows cols).
Proof. apply (np_zeros2_painted rows cols). Qed.

Lemma validate_grid_main_cells_witness :
  validate_grid (np_zeros2 main_rows main_cols) main_res =
  Ok (forallb (fun '(r, c, e) => reads (np_zeros2 main_rows main_cols) r c e)
        [ (522, 575, true); (700, 200, false); (543, 3196, true);
          (702, 245, true); (385, 1798, true); (900, 1500, false);
          (1238, 3312, true); (686, 221, true); (900, 1800, false) ]).
Proof.
  apply (validate_grid_main_cells (np_zeros2 main_rows main_cols)).
  - apply np_zeros2_wf.
  - reflexivity.
  - reflexivity.
Defined.

(** *** The validator and the rasterizer index alike *)

Lemma rows_invert_spec res rows row yo :
  rows_invert res rows = true -> row < rows -> yo ∈ offsets ->
  row_index res (sample_lat res row yo) = Ok (Z.of_nat row).
Proof.
  unfold rows_invert. rewrite forallb_forall. intros Hall Hrow Hyo.
  specialize (Hall row). rewrite forallb_forall in Hall.
  specialize (Hall ltac:(apply in_seq; lia) yo ltac:(by apply list_elem_of_In)).
  destruct (row_index res (sample_lat res row yo)) as [r|]; [|done].
  by apply Z.eqb_eq in Hall as ->.
Qed.

Lemma cols_invert_spec res cols col xo :
  cols_invert res cols = true -> col < cols -> xo ∈ offsets ->
  col_index res (sample_lng res col xo) = Ok (Z.of_nat col).
Proof.
  unfold cols_invert. rewrite forallb_forall. intros Hall Hcol Hxo.
  specialize (Hall col). rewrite forallb_forall in Hall.
  specialize (Hall ltac:(apply in_seq; lia) xo ltac:(by apply list_elem_of_In)).
  destruct (col_index res (sample_lng res col xo)) as [c|]; [|done].
  by apply Z.eqb_eq in Hall as ->.
Qed.

Lemma main_parameters_invert :
  rows_invert main_res main_rows = true /\
  cols_invert main_res main_cols = true.
Proof. split; vm_compute; reflexivity. Qed.

Lemma default_parameters_invert :
  rows_invert generate_grid_default_res generate_grid_default_rows = true /\
  cols_invert generate_grid_default_res generate_grid_default_cols = true.
Proof. split; vm_compute; reflexivity. Qed.

(** X14: at the parameters of [main] (1800, 3600, 0.1) and at the
    default parameters (720, 1440, 0.25), the validator finds every
    sample point of the rasterizer in its own cell: [check] at the
    latitude and longitude of any of the nine sample points of cell
    [(row, col)] reads cell [(row, col)] of the grid [generate_grid]
    returned, and a sample point on land is reported as land. *)
Theorem check_agrees_with_generate_grid `{GeometryEngine} (world : dataset)
    (rows cols : nat) (res : float) (row col : nat) (yo xo : float)
    (Hparams : (rows, cols, res) = (main_rows, main_cols, main_res) \/
               (rows, cols, res) = (generate_grid_default_rows,
                                    generate_grid_default_cols,
                                    generate_grid_default_res))
    (Hrow : row < rows) (Hcol : col < cols)
    (Hyo : yo ∈ offsets) (Hxo : xo ∈ offsets) :
  exists grid v,
    generate_grid world rows cols res = Ok grid /\
    cell grid row col = Some v /\
    (forall expected_land,
       check grid res (sample_lat res row yo) (sample_lng res col xo) expected_land
       = Ok (Bool.eqb (negb (v =? 0)%Z) expected_land)) /\
    (contains (unary_union (omap id world))
       (Point (sample_lng res col xo) (sample_lat res row yo)) = true ->
     check grid res (sample_lat res row yo) (sample_lng res col xo) true = Ok true).
Proof.
  assert (rows_invert res rows = true /\ cols_invert res cols = true)
    as [Hinvr Hinvc].
  { destruct Hparams as [[= -> -> ->]|[= -> -> ->]];
      [apply main_parameters_invert|apply default_parameters_invert]. }
  destruct (generate_grid_painted world rows cols res)
    as (grid & Hgrid & Hwf & Hrows & Hcols & Hcells); [left; lia|].
  set (merged := unary_union (omap id world)) in *.
  exists grid, (Z.b2z (cell_is_land merged res row col)).
  split; [done|]. split; [by apply Hcells|].
  assert (Hcheck : forall e,
    check grid res (sample_lat res row yo) (sample_lng res col xo) e =
    Ok (Bool.eqb (negb (Z.b2z (cell_is_land merged res row col) =? 0)%Z) e)).
  { intros e.
    rewrite (check_reads grid res _ _ e row col Hwf); [|lia|lia| |].
    - unfold reads. by rewrite Hcells.
    - by apply rows_invert_spec with (rows := rows).
    - by apply cols_invert_spec with (cols := cols). }
  split; [done|].
  intros Hland. rewrite Hcheck.
  assert (cell_is_land merged res row col = true) as ->; [|done].
  apply cell_is_land_samples. eexists. split; [|exact Hland].
  unfold sample_points.
  apply list_elem_of_bind. exists yo. split; [|done].
  apply list_elem_of_bind. exists xo. split; [|done].
  by apply list_elem_of_singleton.
Qed.

Lemma check_agrees_with_generate_grid_witness :
  exists grid v,
    @generate_grid point_sets [None] main_rows main_cols main_res = Ok grid /\
    cell grid 3 7 = Some v /\
    (forall expected_land,
       check grid main_res (sample_lat main_res 3 0.5) (sample_lng main_res 7 0.17)
         expected_land
       = Ok (Bool.eqb (negb (v =? 0)%Z) expected_land)) /\
    (@contains point_sets (@unary_union point_sets (omap id [None]))
       (Point (sample_lng main_res 7 0.17) (sample_lat main_res 3 0.5)) = true ->
     check grid main_res (sample_lat main_res 3 0.5) (sample_lng main_res 7 0.17) true
     = Ok true).
Proof.
  apply (@check_agrees_with_generate_grid point_sets [None]
           main_rows main_cols main_res 3 7 0.5%float 0.17%float).
  - left. reflexivity.
  - unfold main_rows. lia.
  - unfold main_cols. lia.
  - unfold offsets. apply list_elem_of_In. simpl. right. left. reflexivity.
  - unfold offsets. apply list_elem_of_In. simpl. left. reflexivity.
Defined.

(** ** The whole run *)

(** X15: [main] never raises, whatever the dataset. It prints
    [const LAND_BITMAP_RLE_B64 = "<b64>";] where [<b64>] is the base64
    text of the run-length encoding of the packed grid; and the
    run-length bytes, decoded and unpacked, give back the 1800 by 3600
    grid that [generate_grid] returned. *)
Theorem main_output `{GeometryEngine} (world : dataset) :
  exists grid rle,
    generate_grid world main_rows main_cols main_res = Ok grid /\
    rle_encode (bitpack grid) = Ok rle /\
    main world =
      Ok (String.append "const LAND_BITMAP_RLE_B64 = "
           (String.append (String (ascii_of_nat 34) EmptyString)
             (String.append (Base64.b64encode rle)
               (String.append (String (ascii_of_nat 34) EmptyString) ";")))) /\
    take (main_rows * main_cols) (unpack (rle_decode rle)) = flatten grid.
Proof.
  destruct (generate_grid_painted world main_rows main_cols main_res)
    as (grid & Hgrid & Hpainted); [left; unfold main_cols; lia|].
  pose proof (painted_boolean _ _ _ _ Hpainted) as Hbool.
  destruct Hpainted as (Hwf & Hrows & Hcols & _).
  destruct (rle_encode_spec (bitpack grid)) as (rle & Hrle & Hpairs);
    [by apply bitpack_bytes|].
  exists grid, rle. split; [done|]. split; [done|]. split.
  - unfold main. rewrite Hgrid. cbn [bind].
    assert (exists ok, validate_grid grid main_res = Ok ok) as [ok ->].
    { eexists. unfold validate_grid. apply validate_loop_ok.
      eexists. split; [by apply known_points_main|reflexivity]. }
    cbn [bind]. cbv zeta. rewrite Hrle. reflexivity.
  - rewrite (run_pairs_decode _ _ Hpairs).
    rewrite <- Hrows, <- Hcols, <- flatten_length by done.
    by apply unpack_bitpack_flat.
Qed.

(** ** Exceptions and empty grids *)

Lemma axis_index_empty i : axis_index 0 i = Raise IndexError.
Proof.
  unfold axis_index.
  destruct (Z.leb_spec 0 i), (Z.ltb_spec i (Z.of_nat 0)),
           (Z.leb_spec (- Z.of_nat 0) i), (Z.ltb_spec i 0); simpl; (done || lia).
Qed.

Lemma getitem2_empty g (r c : Z) :
  shape0 g = 0 \/ shape1 g = 0 ->
  (0 <= r)%Z -> (r < Z.of_nat (shape0 g))%Z \/ shape0 g = 0 ->
  getitem2 g r c = Raise IndexError.
Proof.
  intros Hempty Hr Hlt. unfold getitem2.
  destruct (decide (shape0 g = 0)) as [Hrows|Hrows].
  - by rewrite Hrows, axis_index_empty.
  - destruct Hempty as [Hnone|Hcols]; [done|]. rewrite Hcols.
    unfold axis_index at 1.
    rewrite (proj2 (Z.leb_le _ _)), (proj2 (Z.ltb_lt _ _)) by lia.
    simpl. by rewrite axis_index_empty.
Qed.

(** [check] once the two indices are computed. *)
Lemma check_indexed grid res lat lng e (r c : Z) :
  row_index res lat = Ok r -> col_index res lng = Ok c ->
  check grid res lat lng e =
  do v <- getitem2 grid (Z.max 0 (Z.min (Z.of_nat (shape0 grid) - 1) r))
                        (Z.max 0 (Z.min (Z.of_nat (shape1 grid) - 1) c));
  Ok (Bool.eqb (negb (v =? 0)%Z) e).
Proof.
  intros Hrow Hcol. unfold check, row_index, col_index in *.
  destruct (float_truediv (float_of_Z 90 - lat) res) as [qr|]; [|done].
  cbn [bind] in Hrow |- *. rewrite Hrow. cbn [bind].
  destruct (float_truediv (lng + float_of_Z 180) res) as [qc|]; [|done].
  cbn [bind] in Hcol |- *. rewrite Hcol. cbn [bind]. done.
Qed.

Lemma check_empty_raises grid res lat lng e (r c : Z) :
  shape0 grid = 0 \/ shape1 grid = 0 ->
  row_index res lat = Ok r -> col_index res lng = Ok c ->
  check grid res lat lng e = Raise IndexError.
Proof.
  intros Hempty Hrow Hcol. rewrite (check_indexed _ _ _ _ _ r c) by done.
  rewrite getitem2_empty; [done|done|lia|lia].
Qed.

(** X16: when [check] raises. It raises [ZeroDivisionError] exactly when
    the resolution is zero; it raises [IndexError] exactly when both
    indices could be computed and the grid has no row or no column; and
    whatever else it raises comes from [int]: [ValueError] for a NaN,
    [OverflowError] for an infinity. *)
Theorem check_raises (grid : ndarray2) (res lat lng : float) (expected_land : bool)
    (Hwf : wf_ndarray2 grid) :
  (check grid res lat lng expected_land = Raise ZeroDivisionError <->
   (res =? 0)%float = true) /\
  (check grid res lat lng expected_land = Raise IndexError <->
   (exists r c, row_index res lat = Ok r /\ col_index res lng = Ok c) /\
   (shape0 grid = 0 \/ shape1 grid = 0)) /\
  (forall err, check grid res lat lng expected_land = Raise err ->
     err = ZeroDivisionError \/ err = IndexError \/
     err = ValueError \/ err = OverflowError).
Proof.
  destruct (res =? 0)%float eqn:Hres.
  { assert (check grid res lat lng expected_land = Raise ZeroDivisionError)
      as Hcheck by (unfold check, float_truediv; by rewrite Hres).
    rewrite Hcheck. split; [done|]. split.
    - split; [done|]. intros [(r & c & Hr & _) _].
      unfold row_index, float_truediv in Hr. by rewrite Hres in Hr.
    - intros err [= <-]. by left. }
  destruct (row_index res lat) as [r|err1] eqn:Hrow.
  2: { assert (check grid res lat lng expected_land = Raise err1) as Hcheck.
       { unfold check, row_index, float_truediv in *. rewrite Hres in *.
         cbn [bind] in *. by rewrite Hrow. }
       assert (err1 = ValueError \/ err1 = OverflowError) as Herr.
       { unfold row_index, float_truediv in Hrow. rewrite Hres in Hrow.
         by apply int_of_float_raises in Hrow. }
       rewrite Hcheck. split; [|split].
       - split; [|done]. intros [= ->]. by destruct Herr.
       - split; [intros [= ->]; by destruct Herr|].
         by intros [(r & c & Hr & _) _].
       - intros err [= <-]. tauto. }
  destruct (col_index res lng) as [c|err2] eqn:Hcol.
  2: { assert (check grid res lat lng expected_land = Raise err2) as Hcheck.
       { unfold check, row_index, col_index, float_truediv in *.
         rewrite Hres in *. cbn [bind] in *. rewrite Hrow. cbn [bind].
         by rewrite Hcol. }
       assert (err2 = ValueError \/ err2 = OverflowError) as Herr.
       { unfold col_index, float_truediv in Hcol. rewrite Hres in Hcol.
         by apply int_of_float_raises in Hcol. }
       rewrite Hcheck. split; [|split].
       - split; [|done]. intros [= ->]. by destruct Herr.
       - split; [intros [= ->]; by destruct Herr|].
         by intros [(r' & c & _ & Hc) _].
       - intros err [= <-]. tauto. }
  destruct (decide (shape0 grid = 0 \/ shape1 grid = 0)) as [Hempty|Hfull].
  - rewrite (check_empty_raises grid res lat lng _ r c) by done.
    split; [done|]. split.
    + split; [|done]. intros _. split; [by exists r, c|done].
    + intros err [= <-]. tauto.
  - rewrite (check_indexed _ _ _ _ _ r c) by done.
    destruct (getitem2_in_range grid
                (Z.max 0 (Z.min (Z.of_nat (shape0 grid) - 1) r))
                (Z.max 0 (Z.min (Z.of_nat (shape1 grid) - 1) c)) Hwf)
      as (v & _ & ->); [lia|lia|].
    cbn [bind]. split; [done|]. split; [|done].
    split; [done|]. intros [_ Hempty]. tauto.
Qed.

Lemma check_raises_witness :
  (check sample_grid 0 37.77 (-122.42) true = Raise ZeroDivisionError <->
   (0 =? 0)%float = true) /\
  (check sample_grid 0 37.77 (-122.42) true = Raise IndexError <->
   (exists r c, row_index 0 37.77 = Ok r /\ col_index 0 (-122.42) = Ok c) /\
   (shape0 sample_grid = 0 \/ shape1 sample_grid = 0)) /\
  (forall err, check sample_grid 0 37.77 (-122.42) true = Raise err ->
     err = ZeroDivisionError \/ err = IndexError \/
     err = ValueError \/ err = OverflowError).
Proof.
  apply (check_raises sample_grid 0 37.77 (-122.42) true).
  split; [reflexivity|]. repeat constructor.
Defined.

(** X17: a grid with no row or no column. With no column and 180 rows
    or more, [generate_grid] fails in its progress report with
    [ZeroDivisionError]; otherwise it returns the empty grid. [bitpack]
    packs the empty grid to no bytes, which encode to no bytes and to the
    empty base64 text; but [validate_grid], at the resolution of [main],
    fails on its first check with [IndexError]. *)
Theorem empty_grid_pipeline `{GeometryEngine} (world : dataset)
    (rows cols : nat) (res : float) (Hempty : rows = 0 \/ cols = 0) :
  generate_grid world rows cols res =
    (if (cols =? 0) && (180 <=? rows) then Raise ZeroDivisionError
     else Ok (np_zeros2 rows cols)) /\
  bitpack (np_zeros2 rows cols) = [] /\
  rle_encode [] = Ok [] /\
  Base64.b64encode [] = EmptyString /\
  validate_grid (np_zeros2 rows cols) main_res = Raise IndexError.
Proof.
  split; [|split; [|split; [|split]]].
  - destruct (Nat.eqb_spec cols 0) as [Hcols|Hcols], (Nat.leb_spec 180 rows)
      as [Hrows|Hrows]; simpl.
    + subst cols. by apply generate_grid_zero_division.
    + destruct (generate_grid_painted world rows cols res)
        as (grid & -> & Hpainted); [right; lia|].
      f_equal.
      apply (painted_inj _ _ rows cols (fun _ _ => false));
        [|apply np_zeros2_painted].
      eapply painted_ext; [|exact Hpainted].
      intros r c Hr Hc. lia.
    + lia.
    + destruct (generate_grid_painted world rows cols res)
        as (grid & -> & Hpainted); [by left|].
      f_equal.
      apply (painted_inj _ _ rows cols (fun _ _ => false));
        [|apply np_zeros2_painted].
      eapply painted_ext; [|exact Hpainted].
      intros r c Hr Hc. lia.
  - apply length_zero_iff_nil.
    rewrite bitpack_length, flatten_length by apply np_zeros2_wf. simpl.
    destruct Hempty as [-> | ->]; [done|]. by rewrite Nat.mul_0_r.
  - apply rle_encode_nil.
  - reflexivity.
  - unfold validate_grid, known_points. cbn [for_in].
    rewrite (check_empty_raises _ _ _ _ _ 522 575);
      [done|simpl; lia|vm_compute; reflexivity|vm_compute; reflexivity].
Qed.

(** No column, 7 rows: the empty grid is returned. *)
Lemma empty_grid_pipeline_witness :
  @generate_grid point_sets [None] 7 0 0.1 =
    (if (0 =? 0) && (180 <=? 7) then Raise ZeroDivisionError
     else Ok (np_zeros2 7 0)) /\
  bitpack (np_zeros2 7 0) = [] /\
  rle_encode [] = Ok [] /\
  Base64.b64encode [] = EmptyString /\
  validate_grid (np_zeros2 7 0) main_res = Raise IndexError.
Proof.
  apply (@empty_grid_pipeline point_sets [None] 7 0 0.1%float).
  right. reflexivity.
Defined.

(** No column, 180 rows: the progress report fails; no row: the empty
    grid is returned. *)
Example empty_grid_sizes :
  @generate_grid point_sets [None] 180 0 0.1 = Raise ZeroDivisionError /\
  @generate_grid point_sets [None] 179 0 0.1 = Ok (np_zeros2 179 0) /\
  @generate_grid point_sets [None] 0 5 0.1 = Ok (np_zeros2 0 5).
Proof. repeat split; vm_compute; reflexivity. Qed.

(** ** All water *)

Lemma bitpack_all_water g :
  wf_ndarray2 g -> Forall (Forall (fun v => v = 0%Z)) (cells g) ->
  bitpack g = replicate ((shape0 g * shape1 g + 7) / 8) 0%Z.
Proof.
  intros Hwf Hwater. symmetry. apply replicate_as_Forall.
  pose proof (all_water_flatten g Hwf Hwater) as Hflat.
  split; [by rewrite bitpack_length, flatten_length|].
  apply Forall_lookup_2. intros j byte Hj.
  rewrite bitpack_lookup in Hj by (by eapply lookup_lt_Some).
  apply (inj Some) in Hj. subst byte.
  unfold gathered. cbn [seq foldl].
  rewrite !set_prefix_zeros_nth, Hflat.
  assert (forall i, nth i (replicate (shape0 g * shape1 g) 0%Z) 0%Z = 0%Z) as Hzero.
  { intros i.
    destruct (nth_lookup_or_length (replicate (shape0 g * shape1 g) 0%Z) i 0%Z)
      as [Hi|Hi]; [|by apply nth_overflow].
    by apply lookup_replicate in Hi as [-> _]. }
  rewrite !Hzero. reflexivity.
Qed.

(** X18: an all-water grid of any size: its [rows * cols] cells pack to
    [m = (rows * cols + 7) // 8] zero bytes, and these encode as
    [m div 255] pairs [(0, 255)] followed, when 255 does not divide [m],
    by the pair [(0, m mod 255)]. *)
Theorem all_water_any_size (g : ndarray2) (Hwf : wf_ndarray2 g)
    (Hwater : Forall (Forall (fun v => v = 0%Z)) (cells g)) :
  bitpack g = replicate ((shape0 g * shape1 g + 7) / 8) 0%Z /\
  rle_encode (bitpack g) =
  Ok (concat (replicate ((shape0 g * shape1 g + 7) / 8 / 255) [0; 255]%Z) ++
      (if (shape0 g * shape1 g + 7) / 8 mod 255 =? 0 then []
       else [0%Z; Z.of_nat ((shape0 g * shape1 g + 7) / 8 mod 255)])).
Proof.
  pose proof (bitpack_all_water g Hwf Hwater) as Hpacked.
  split; [done|]. rewrite Hpacked.
  destruct (rle_encode_spec (replicate ((shape0 g * shape1 g + 7) / 8) 0%Z))
    as (enc & Henc & Hpairs); [by apply is_bytes_replicate|].
  rewrite Henc. f_equal.
  apply (run_pairs_inj _ _ _ Hpairs), run_pairs_replicate.
Qed.

Lemma all_water_any_size_witness :
  bitpack (np_zeros2 3 7) = replicate ((shape0 (np_zeros2 3 7) * shape1 (np_zeros2 3 7) + 7) / 8) 0%Z /\
  rle_encode (bitpack (np_zeros2 3 7)) =
  Ok (concat (replicate ((shape0 (np_zeros2 3 7) * shape1 (np_zeros2 3 7) + 7) / 8 / 255)
                [0; 255]%Z) ++
      (if (shape0 (np_zeros2 3 7) * shape1 (np_zeros2 3 7) + 7) / 8 mod 255 =? 0 then []
       else [0%Z; Z.of_nat ((shape0 (np_zeros2 3 7) * shape1 (np_zeros2 3 7) + 7) / 8
                             mod 255)])).
Proof.
  apply (all_water_any_size (np_zeros2 3 7)).
  - split; [reflexivity|]. repeat constructor.
  - repeat constructor.
Defined.
